(** * The authorization guard of nestjs-bff

    A shallow embedding of
    [packages/backend/src/host/http/core/guards/authorization.guard.ts]:
    the class [AuthorizationGuard] with its methods [canActivate],
    [getOrgIdFromSlug], [getauthchecksFromCache] and [getauthcheck].

    The guard is asynchronous, stateful code: it awaits an organization
    repository, a cache store and the authchecks, and any of these may
    throw. It is modelled in a small state-and-exception monad over a
    [World] that holds the shared cache store, the clock the cache reads,
    and the log of the calls the guard makes on its collaborators.

    The logger ([trace], [debug], [warn], [error]) and [getReqMetadataLite]
    only feed log lines; they are left out of the model (both uses of
    [getReqMetadataLite] sit in branches that return [false], inside the
    [try], so they cannot change a decision). *)

From stdpp Require Import base strings gmap list.
From Stdlib Require Import ZArith Lia.

(** ** Exceptions and results *)

(** What can be thrown inside [canActivate]: the guard's own
    [BadGatewayHttpError], or whatever a collaborator throws. *)
Inductive Error : Type :=
  | BadGatewayHttpError (message : string)
  | CollaboratorError (message : string).

(** The result of a call that may throw (of a promise that may reject). *)
Inductive Outcome (A : Type) : Type :=
  | Returned (a : A)
  | Thrown (e : Error).
Arguments Returned {A} a.
Arguments Thrown {A} e.

(** A function object: a controller class or a handler method. The guard
    uses it in two ways: as the target of a metadata read, and rendered
    into the cache key by a template string (its source text). *)
Record FunctionRef : Type := {
  fn_ident : nat;
  fn_text : string
}.

(** An organization as the repository returns it; the guard reads [id]. *)
Record OrganizationEntity : Type := {
  organization_id : option string
}.

Section Guard.

(** The requester's identity and claims, built by the authentication step
    before the guard runs; the guard only passes it on. *)
Context {AuthorizationEntity : Type}.

(** ** Data *)

(** The argument of [isAuthorized]. *)
Record AuthCheckParams : Type := {
  requestingEntity : AuthorizationEntity;
  orgIdForTargetResource : option string;
  userIdForTargetResource : option string
}.

(** [AuthCheckContract]: one rule. [constructor_name] is what the guard
    logs for a failed rule. *)
Record AuthCheckContract : Type := {
  constructor_name : string;
  isAuthorized : AuthCheckParams → Outcome bool
}.

(** What metadata and the cache hold for a route: [None] is [undefined]. *)
Definition AuthChecks : Type := option (list AuthCheckContract).

(** The request, with the three fields the guard reads. [authorization]
    is [None] when the field is absent. Route parameters are strings. *)
Record Request : Type := {
  originalUrl : string;
  authorization : option AuthorizationEntity;
  params : gmap string string
}.

(** [ExecutionContext]: [getRequest] is [context.switchToHttp().getRequest()],
    [None] when it yields no request object. *)
Record ExecutionContext : Type := {
  getRequest : option Request;
  getClass : FunctionRef;
  getHandler : FunctionRef
}.

(** The collaborators injected in the constructor, except the cache store,
    which is shared mutable state and lives in the [World]. *)
Record AuthorizationGuard : Type := {
  reflector : string → FunctionRef → AuthChecks;
  organizationCache_findOne : string → Outcome (option OrganizationEntity);
  publicRouteRegex_test : string → bool
}.

(** ** The world: cache store, clock and call log *)

Inductive Event : Type :=
  | FindOne (slug : string)
  | Wrap (key : string) (ttl : Z)
  | ReflectorGet (metadataKey : string) (target : FunctionRef)
  | IsAuthorized (authcheck : string) (args : AuthCheckParams).

Record World : Type := {
  cacheStore : gmap string (Z * AuthChecks);
  now : Z;
  calls : list Event
}.

Definition log_call (e : Event) (w : World) : World :=
  {| cacheStore := cacheStore w; now := now w; calls := calls w ++ [e] |}.

Definition store_entry (key : string) (entry : Z * AuthChecks) (w : World) : World :=
  {| cacheStore := <[key := entry]> (cacheStore w); now := now w; calls := calls w |}.

(** The clock moves between two decisions, not inside one. *)
Definition at_time (t : Z) (w : World) : World :=
  {| cacheStore := cacheStore w; now := t; calls := calls w |}.

(** The calls made between world [w] and a later world [w']. *)
Definition calls_since (w w' : World) : list Event :=
  drop (length (calls w)) (calls w').

(** ** The monad *)

Definition M (A : Type) : Type := World → Outcome A * World.

Definition ret {A : Type} (a : A) : M A := λ w, (Returned a, w).

Definition throw {A : Type} (e : Error) : M A := λ w, (Thrown e, w).

Definition bind {A B : Type} (m : M A) (k : A → M B) : M B :=
  λ w, match m w with
       | (Returned a, w') => k a w'
       | (Thrown e, w') => (Thrown e, w')
       end.

Definition try_catch {A : Type} (m : M A) (handler : Error → M A) : M A :=
  λ w, match m w with
       | (Returned a, w') => (Returned a, w')
       | (Thrown e, w') => handler e w'
       end.

(** A call on a collaborator: logged, then its result. *)
Definition call {A : Type} (e : Event) (result : Outcome A) : M A :=
  λ w, (result, log_call e w).

Notation "'let!' x ':=' m 'in' k" := (bind m (λ x, k))
  (at level 10, x name, m at level 200, k at level 200).

(** ** The cache store *)

(** One week, in seconds, as written in [getauthchecksFromCache]. *)
Definition authcheck_ttl : Z := (60 * 60 * 24 * 7)%Z.

(** Modelled from the spec: the cache store's [wrap], whose implementation
    ([shared/caching/cache-store.shared]) is not part of the sources at
    hand. The spec's words: [wrap(key, computeFn, { ttl_seconds })] returns
    the cached value if present and unexpired, else invokes [computeFn],
    stores, and returns. An entry stored at time [t] with [ttl] carries the
    expiry instant [t + ttl] and is unexpired while [now < t + ttl]. *)
Definition wrap (key : string) (work : M AuthChecks) (ttl : Z) : M AuthChecks :=
  λ w,
    let w0 := log_call (Wrap key ttl) w in
    let compute :=
      match work w0 with
      | (Returned v, w1) => (Returned v, store_entry key ((now w1 + ttl)%Z, v) w1)
      | (Thrown e, w1) => (Thrown e, w1)
      end in
    match cacheStore w0 !! key with
    | Some (expiry, v) => if (now w0 <? expiry)%Z then (Returned v, w0) else compute
    | None => compute
    end.

(** ** The guard's methods *)

Section Methods.

Variable this : AuthorizationGuard.

(** [getauthcheck]: the handler's metadata, and the controller's only when
    the handler's is [undefined] (an array, also an empty one, is truthy). *)
Definition getauthcheck (context : ExecutionContext) : M AuthChecks :=
  let! authchecks := call (ReflectorGet "authorization" (getHandler context))
                     (Returned (reflector this "authorization" (getHandler context))) in
  match authchecks with
  | None =>
      call (ReflectorGet "authorization" (getClass context))
           (Returned (reflector this "authorization" (getClass context)))
  | Some _ => ret authchecks
  end.

(** The template string of [getauthchecksFromCache]. *)
Definition authcheckCacheKey (context : ExecutionContext) : string :=
  "AuthorizationGuard-authcheck?class=" +:+ fn_text (getClass context)
    +:+ "&handler=" +:+ fn_text (getHandler context) +:+ ")".

Definition getauthchecksFromCache (context : ExecutionContext) : M AuthChecks :=
  wrap (authcheckCacheKey context) (getauthcheck context) authcheck_ttl.

(** [!organizationSlug]: [undefined] and the empty string are falsy. *)
Definition falsy_string (s : option string) : bool :=
  match s with
  | None => true
  | Some s => String.eqb s ""
  end.

Definition getOrgIdFromSlug (organizationSlug : option string) : M (option string) :=
  if falsy_string organizationSlug then ret None
  else
    let slug := default "" organizationSlug in
    let! organization := call (FindOne slug) (organizationCache_findOne this slug) in
    match organization with
    | None => ret None
    | Some organization => ret (organization_id organization)
    end.

(** [!authchecks || authchecks.length === 0] *)
Definition no_authchecks (authchecks : AuthChecks) : bool :=
  match authchecks with
  | None => true
  | Some l => Nat.eqb (length l) 0
  end.

(** The [for ... of] loop over the authchecks: [false] at the first rule
    that does not return [true], [true] when the list is exhausted. *)
Fixpoint run_authchecks (authchecks : list AuthCheckContract) (args : AuthCheckParams)
  : M bool :=
  match authchecks with
  | [] => ret true
  | authcheck :: rest =>
      let! ok := call (IsAuthorized (constructor_name authcheck) args)
                 (isAuthorized authcheck args) in
      if negb ok then ret false else run_authchecks rest args
  end.

(** The body of the [try] block of [canActivate]. *)
Definition canActivate_try (context : ExecutionContext) : M bool :=
  let! req := match getRequest context with
         | None => throw (BadGatewayHttpError "request can not be null")
         | Some req => ret req
         end in
  if publicRouteRegex_test this (originalUrl req) then ret true
  else
    match authorization req with
    | None => ret false
    | Some authorization =>
        let! orgId := getOrgIdFromSlug (params req !! "organizationSlug") in
        let userId := params req !! "userId" in
        let! authchecks := getauthchecksFromCache context in
        if no_authchecks authchecks then ret false
        else
          run_authchecks (default [] authchecks)
            {| requestingEntity := authorization;
               orgIdForTargetResource := orgId;
               userIdForTargetResource := userId |}
    end.

(** [canActivate]: the [try] block, and [catch (error) { return false }]. *)
Definition canActivate (context : ExecutionContext) : M bool :=
  try_catch (canActivate_try context) (λ _, ret false).

End Methods.

(** ** First facts: the monad and the frame of each method *)

Implicit Types (this : AuthorizationGuard) (context : ExecutionContext)
  (w : World) (req : Request) (evs : list Event).

(** [w'] differs from [w] by the calls [evs] only: same cache, same clock. *)
Definition only_calls (w : World) (evs : list Event) (w' : World) : Prop :=
  cacheStore w' = cacheStore w ∧ now w' = now w ∧ calls w' = calls w ++ evs.

Lemma only_calls_refl w : only_calls w [] w.
Proof. unfold only_calls. by rewrite app_nil_r. Qed.

Lemma only_calls_since w evs w' : only_calls w evs w' → calls_since w w' = evs.
Proof.
  intros (_ & _ & Hl). unfold calls_since. rewrite Hl. apply drop_app_length.
Qed.

Lemma calls_since_refl w : calls_since w w = [].
Proof. apply only_calls_since, only_calls_refl. Qed.

(** Several calls logged at once. *)
Definition log_calls (evs : list Event) (w : World) : World :=
  {| cacheStore := cacheStore w; now := now w; calls := calls w ++ evs |}.

Lemma log_call_log_calls e w : log_call e w = log_calls [e] w.
Proof. done. Qed.

Lemma log_calls_nil w : log_calls [] w = w.
Proof. destruct w. unfold log_calls. simpl. by rewrite app_nil_r. Qed.

Lemma log_calls_app evs1 evs2 w :
  log_calls evs2 (log_calls evs1 w) = log_calls (evs1 ++ evs2) w.
Proof. unfold log_calls. simpl. by rewrite app_assoc. Qed.

Lemma only_calls_log_calls evs w : only_calls w evs (log_calls evs w).
Proof. done. Qed.

Lemma calls_since_log_calls evs w : calls_since w (log_calls evs w) = evs.
Proof. apply only_calls_since, only_calls_log_calls. Qed.

(** *** [getOrgIdFromSlug] *)

Lemma getOrgIdFromSlug_no_slug this o w :
  falsy_string o = true → getOrgIdFromSlug this o w = (Returned None, w).
Proof. intros H. unfold getOrgIdFromSlug. by rewrite H. Qed.

Lemma falsy_string_Some slug : slug ≠ "" → falsy_string (Some slug) = false.
Proof. intros H. simpl. by apply String.eqb_neq. Qed.

Lemma getOrgIdFromSlug_slug this slug w :
  slug ≠ "" →
  getOrgIdFromSlug this (Some slug) w
  = match organizationCache_findOne this slug with
    | Returned (Some organization) =>
        (Returned (organization_id organization), log_call (FindOne slug) w)
    | Returned None => (Returned None, log_call (FindOne slug) w)
    | Thrown e => (Thrown e, log_call (FindOne slug) w)
    end.
Proof.
  intros H. unfold getOrgIdFromSlug. rewrite (falsy_string_Some _ H).
  unfold bind, call. simpl.
  by destruct (organizationCache_findOne this slug) as [[org|]|e].
Qed.

(** The organization lookup logs at most one call, a [FindOne], and leaves
    cache and clock alone. The repository is asked exactly when the slug
    is present and not empty. *)
Lemma getOrgIdFromSlug_frame this o w :
  ∃ evs, (getOrgIdFromSlug this o w).2 = log_calls evs w
         ∧ evs = (if falsy_string o then [] else [FindOne (default "" o)]).
Proof.
  destruct (falsy_string o) eqn:Ho.
  - exists []. rewrite (getOrgIdFromSlug_no_slug _ _ _ Ho). by rewrite log_calls_nil.
  - destruct o as [slug|]; [|done]. exists [FindOne slug]. split; [|done].
    assert (slug ≠ "") as Hne by (by apply String.eqb_neq).
    rewrite (getOrgIdFromSlug_slug _ _ _ Hne).
    by destruct (organizationCache_findOne this slug) as [[org|]|e].
Qed.

Lemma getOrgIdFromSlug_asks_repository this o slug w :
  FindOne slug ∈ calls_since w (getOrgIdFromSlug this o w).2
  ↔ o = Some slug ∧ slug ≠ "".
Proof.
  destruct (getOrgIdFromSlug_frame this o w) as (evs & -> & ->).
  rewrite calls_since_log_calls. destruct o as [s|]; simpl.
  - destruct (String.eqb_spec s "") as [-> | Hne].
    + split; [by intros ?%elem_of_nil | by intros [[= ->] ?]].
    + rewrite list_elem_of_singleton. split.
      * by intros [= ->].
      * by intros [[= ->] _].
  - split; [by intros ?%elem_of_nil | by intros [? _]].
Qed.

(** *** [getauthcheck] and the cache *)

(** The value and the reflector reads of one run of [getauthcheck]. *)
Definition metadata_authchecks this context : AuthChecks :=
  match reflector this "authorization" (getHandler context) with
  | Some l => Some l
  | None => reflector this "authorization" (getClass context)
  end.

Definition metadata_calls this context : list Event :=
  match reflector this "authorization" (getHandler context) with
  | Some _ => [ReflectorGet "authorization" (getHandler context)]
  | None => [ReflectorGet "authorization" (getHandler context);
             ReflectorGet "authorization" (getClass context)]
  end.

Lemma getauthcheck_run this context w :
  getauthcheck this context w
  = (Returned (metadata_authchecks this context),
     log_calls (metadata_calls this context) w).
Proof.
  unfold getauthcheck, metadata_authchecks, metadata_calls, bind, call, ret. simpl.
  destruct (reflector this "authorization" (getHandler context)); [done|].
  by rewrite !log_call_log_calls, log_calls_app.
Qed.

(** The unexpired entry of the route's key, if there is one. *)
Definition cached context w : option AuthChecks :=
  match cacheStore w !! authcheckCacheKey context with
  | Some (expiry, v) => if (now w <? expiry)%Z then Some v else None
  | None => None
  end.

Definition wrap_call context : Event :=
  Wrap (authcheckCacheKey context) authcheck_ttl.

Lemma getauthchecksFromCache_hit this context w v :
  cached context w = Some v →
  getauthchecksFromCache this context w = (Returned v, log_calls [wrap_call context] w).
Proof.
  unfold cached, getauthchecksFromCache, wrap. simpl. intros H.
  destruct (cacheStore w !! authcheckCacheKey context) as [[expiry v']|]; [|done].
  destruct (now w <? expiry)%Z; [|done]. by injection H as ->.
Qed.

Lemma getauthchecksFromCache_miss this context w :
  cached context w = None →
  getauthchecksFromCache this context w
  = (Returned (metadata_authchecks this context),
     store_entry (authcheckCacheKey context)
       ((now w + authcheck_ttl)%Z, metadata_authchecks this context)
       (log_calls (wrap_call context :: metadata_calls this context) w)).
Proof.
  unfold cached, getauthchecksFromCache, wrap. simpl. intros H.
  rewrite getauthcheck_run, log_call_log_calls, log_calls_app. simpl.
  destruct (cacheStore w !! authcheckCacheKey context) as [[expiry v']|]; [|done].
  by destruct (now w <? expiry)%Z.
Qed.

(** *** The loop over the authchecks *)

Definition authcheck_call (args : AuthCheckParams) (authcheck : AuthCheckContract) : Event :=
  IsAuthorized (constructor_name authcheck) args.

Definition passes (args : AuthCheckParams) (authcheck : AuthCheckContract) : Prop :=
  isAuthorized authcheck args = Returned true.

Lemma run_authchecks_pass_prefix pre rest args w :
  Forall (passes args) pre →
  run_authchecks (pre ++ rest) args w
  = run_authchecks rest args (log_calls (fmap (authcheck_call args) pre) w).
Proof.
  intros Hpre. revert w.
  induction Hpre as [|c pre Hc _ IH]; intros w; simpl.
  - by rewrite log_calls_nil.
  - unfold bind, call. rewrite Hc. simpl. rewrite IH.
    by rewrite log_call_log_calls, log_calls_app.
Qed.

Lemma run_authchecks_all_pass rs args w :
  Forall (passes args) rs →
  run_authchecks rs args w
  = (Returned true, log_calls (fmap (authcheck_call args) rs) w).
Proof.
  intros H. rewrite <- (app_nil_r rs) at 1.
  by rewrite (run_authchecks_pass_prefix rs [] args w H).
Qed.

Lemma run_authchecks_first_fail pre r post args w :
  Forall (passes args) pre →
  isAuthorized r args = Returned false →
  run_authchecks (pre ++ r :: post) args w
  = (Returned false, log_calls (fmap (authcheck_call args) (pre ++ [r])) w).
Proof.
  intros Hpre Hr. rewrite (run_authchecks_pass_prefix pre _ args w Hpre).
  simpl. unfold bind, call. rewrite Hr. simpl.
  by rewrite log_call_log_calls, log_calls_app, fmap_app.
Qed.

Lemma run_authchecks_first_throw pre r post args e w :
  Forall (passes args) pre →
  isAuthorized r args = Thrown e →
  run_authchecks (pre ++ r :: post) args w
  = (Thrown e, log_calls (fmap (authcheck_call args) (pre ++ [r])) w).
Proof.
  intros Hpre Hr. rewrite (run_authchecks_pass_prefix pre _ args w Hpre).
  simpl. unfold bind, call. rewrite Hr. simpl.
  by rewrite log_call_log_calls, log_calls_app, fmap_app.
Qed.

(** Whatever the rules answer, the loop calls a prefix of the list, in
    order, each rule with the same argument. *)
Lemma run_authchecks_frame rs args w :
  ∃ k, (run_authchecks rs args w).2
       = log_calls (fmap (authcheck_call args) (take k rs)) w.
Proof.
  revert w. induction rs as [|c rs IH]; intros w.
  - exists 0%nat. simpl. by rewrite log_calls_nil.
  - simpl. unfold bind, call.
    destruct (isAuthorized c args) as [[|]|e]; simpl.
    + destruct (IH (log_call (IsAuthorized (constructor_name c) args) w)) as [k Hk].
      exists (S k). rewrite Hk. simpl.
      by rewrite log_call_log_calls, log_calls_app.
    + by exists 1%nat.
    + by exists 1%nat.
Qed.

(** The steps of [canActivate_try] up to the authorization test. *)
Lemma canActivate_try_no_request this context w :
  getRequest context = None →
  canActivate_try this context w
  = (Thrown (BadGatewayHttpError "request can not be null"), w).
Proof. intros Hr. unfold canActivate_try, bind, throw. by rewrite Hr. Qed.

Lemma canActivate_try_public this context req w :
  getRequest context = Some req →
  publicRouteRegex_test this (originalUrl req) = true →
  canActivate_try this context w = (Returned true, w).
Proof.
  intros Hr Hp. unfold canActivate_try, bind, ret. rewrite Hr. simpl. by rewrite Hp.
Qed.

Lemma canActivate_try_no_authorization this context req w :
  getRequest context = Some req →
  publicRouteRegex_test this (originalUrl req) = false →
  authorization req = None →
  canActivate_try this context w = (Returned false, w).
Proof.
  intros Hr Hp Ha. unfold canActivate_try, bind, ret. rewrite Hr. simpl.
  by rewrite Hp, Ha.
Qed.

(** Past the authorization test, the decision is the rest of the [try]
    block: organization id, rule set, rules. *)
Lemma canActivate_try_authorized this context req a w :
  getRequest context = Some req →
  publicRouteRegex_test this (originalUrl req) = false →
  authorization req = Some a →
  canActivate_try this context w
  = bind (getOrgIdFromSlug this (params req !! "organizationSlug"))
      (λ orgId,
         bind (getauthchecksFromCache this context)
           (λ authchecks,
              if no_authchecks authchecks then ret false
              else run_authchecks (default [] authchecks)
                     {| requestingEntity := a;
                        orgIdForTargetResource := orgId;
                        userIdForTargetResource := params req !! "userId" |})) w.
Proof.
  intros Hr Hp Ha. unfold canActivate_try at 1, bind at 1, ret. rewrite Hr. simpl.
  by rewrite Hp, Ha.
Qed.

(** Once both lookups have returned, the decision is the emptiness test
    and the loop, under the [catch]. *)
Lemma canActivate_after_lookups this context req a w orgId w1 rs w2 :
  getRequest context = Some req →
  publicRouteRegex_test this (originalUrl req) = false →
  authorization req = Some a →
  getOrgIdFromSlug this (params req !! "organizationSlug") w = (Returned orgId, w1) →
  getauthchecksFromCache this context w1 = (Returned rs, w2) →
  canActivate this context w
  = if no_authchecks rs then (Returned false, w2)
    else try_catch
           (run_authchecks (default [] rs)
              {| requestingEntity := a;
                 orgIdForTargetResource := orgId;
                 userIdForTargetResource := params req !! "userId" |})
           (λ _, ret false) w2.
Proof.
  intros Hr Hp Ha Ho Hc. unfold canActivate, try_catch.
  rewrite (canActivate_try_authorized _ _ req a) by done.
  unfold bind. rewrite Ho, Hc. by destruct (no_authchecks rs).
Qed.

Lemma canActivate_org_lookup_throws this context req a w e w1 :
  getRequest context = Some req →
  publicRouteRegex_test this (originalUrl req) = false →
  authorization req = Some a →
  getOrgIdFromSlug this (params req !! "organizationSlug") w = (Thrown e, w1) →
  canActivate this context w = (Returned false, w1).
Proof.
  intros Hr Hp Ha Ho. unfold canActivate, try_catch.
  rewrite (canActivate_try_authorized _ _ req a) by done.
  unfold bind. by rewrite Ho.
Qed.

(** What the [catch] does with each result of the [try] block. *)
Lemma canActivate_of_returned this context w b w' :
  canActivate_try this context w = (Returned b, w') →
  canActivate this context w = (Returned b, w').
Proof. intros H. unfold canActivate, try_catch. by rewrite H. Qed.

Lemma canActivate_of_thrown this context w e w' :
  canActivate_try this context w = (Thrown e, w') →
  canActivate this context w = (Returned false, w').
Proof. intros H. unfold canActivate, try_catch. by rewrite H. Qed.

Lemma canActivate_authorization_absent this context req w :
  getRequest context = Some req →
  publicRouteRegex_test this (originalUrl req) = false →
  authorization req = None →
  canActivate this context w = (Returned false, w).
Proof.
  intros Hr Hp Ha.
  by apply canActivate_of_returned, (canActivate_try_no_authorization _ _ req).
Qed.

Lemma canActivate_missing_request this context w :
  getRequest context = None →
  canActivate this context w = (Returned false, w).
Proof.
  intros Hr. eapply canActivate_of_thrown. by apply canActivate_try_no_request.
Qed.

(** With both lookups done and no rule to run, the decision is [false]. *)
Lemma canActivate_without_rules this context req a w orgId w1 rs w2 :
  getRequest context = Some req →
  publicRouteRegex_test this (originalUrl req) = false →
  authorization req = Some a →
  getOrgIdFromSlug this (params req !! "organizationSlug") w = (Returned orgId, w1) →
  getauthchecksFromCache this context w1 = (Returned rs, w2) →
  no_authchecks rs = true →
  canActivate this context w = (Returned false, w2).
Proof.
  intros Hr Hp Ha Ho Hc Hrs.
  rewrite (canActivate_after_lookups _ _ req a w orgId w1 rs w2) by done.
  by rewrite Hrs.
Qed.

(** ** The decisions taken before any lookup *)

(** C3. Public-route bypass: when the public-route pattern matches the
    request's [originalUrl], [canActivate] returns [true] whatever the
    request's [authorization] field holds, and the world is left as it
    was: no call on the organization repository, the cache store, the
    reflector or an authcheck is logged, and the cache is not touched. *)
Theorem canActivate_public_route this context req w :
  getRequest context = Some req →
  publicRouteRegex_test this (originalUrl req) = true →
  canActivate this context w = (Returned true, w)
  ∧ calls_since w (canActivate this context w).2 = [].
Proof.
  intros Hr Hp.
  assert (canActivate this context w = (Returned true, w)) as ->.
  { by apply canActivate_of_returned, (canActivate_try_public _ _ req). }
  split; [done | apply calls_since_refl].
Qed.

(** C4. Missing authorization context: on a route that is not public, a
    request whose [authorization] field is absent is denied, before any
    lookup. *)
Theorem canActivate_no_authorization this context req w :
  getRequest context = Some req →
  publicRouteRegex_test this (originalUrl req) = false →
  authorization req = None →
  canActivate this context w = (Returned false, w).
Proof.
  intros Hr Hp Ha. by apply (canActivate_authorization_absent _ _ req).
Qed.

(** ** Rule sets and rules *)

(** C1. Fail-closed default: for a request that is not public and carries
    an authorization context, when the rule set that
    [getauthchecksFromCache] resolves for the matched handler and
    controller (in the world the organization lookup leaves) is absent
    ([undefined]) or empty, [canActivate] returns [false], never [true]. *)
Theorem canActivate_fail_closed this context req a w :
  getRequest context = Some req →
  publicRouteRegex_test this (originalUrl req) = false →
  authorization req = Some a →
  (∀ rs,
      (getauthchecksFromCache this context
         (getOrgIdFromSlug this (params req !! "organizationSlug") w).2).1
      = Returned rs →
      rs = None ∨ rs = Some []) →
  (canActivate this context w).1 = Returned false.
Proof.
  intros Hr Hp Ha Hrs.
  destruct (getOrgIdFromSlug this (params req !! "organizationSlug") w)
    as [[orgId|e] w1] eqn:Ho;
    [|by rewrite (canActivate_org_lookup_throws _ _ req a w e w1)].
  simpl in Hrs.
  destruct (getauthchecksFromCache this context w1) as [[rs|e] w2] eqn:Hc.
  - rewrite (canActivate_without_rules _ _ req a w orgId w1 rs w2); try done.
    by destruct (Hrs rs eq_refl) as [-> | ->].
  - unfold canActivate, try_catch.
    rewrite (canActivate_try_authorized _ _ req a) by done.
    unfold bind. by rewrite Ho, Hc.
Qed.

(** C5. In-order, short-circuiting evaluation: for a non-empty resolved
    rule list [rs], each rule is called with the authorization context,
    the resolved organization id and the user id; if [r] is the first rule
    that returns [false] ([rs = pre ++ r :: post], all of [pre] return
    [true]), [canActivate] returns [false] and the calls logged are those
    of [pre] and [r], in list order, and none of [post]; if every rule
    returns [true], [canActivate] returns [true] after calling all of
    [rs] in list order. *)
Theorem canActivate_rules_in_order this context req a w orgId w1 rs w2 args :
  getRequest context = Some req →
  publicRouteRegex_test this (originalUrl req) = false →
  authorization req = Some a →
  getOrgIdFromSlug this (params req !! "organizationSlug") w = (Returned orgId, w1) →
  getauthchecksFromCache this context w1 = (Returned (Some rs), w2) →
  rs ≠ [] →
  args = {| requestingEntity := a;
            orgIdForTargetResource := orgId;
            userIdForTargetResource := params req !! "userId" |} →
  (∀ pre r post,
      rs = pre ++ r :: post →
      Forall (passes args) pre →
      isAuthorized r args = Returned false →
      canActivate this context w
      = (Returned false, log_calls (fmap (authcheck_call args) (pre ++ [r])) w2))
  ∧ (Forall (passes args) rs →
     canActivate this context w
     = (Returned true, log_calls (fmap (authcheck_call args) rs) w2)).
Proof.
  intros Hr Hp Ha Ho Hc Hne ->.
  rewrite (canActivate_after_lookups _ _ req a w orgId w1 (Some rs) w2) by done.
  assert (no_authchecks (Some rs) = false) as -> by (by destruct rs).
  unfold try_catch. simpl. split.
  - intros pre r post -> Hpre Hfail.
    by rewrite (run_authchecks_first_fail pre r post _ w2 Hpre Hfail).
  - intros Hall. by rewrite (run_authchecks_all_pass rs _ w2 Hall).
Qed.

(** The guards that differ from [this] in the controller-level metadata
    at most: same repository, same public-route pattern, same handler-level
    metadata for the route. *)
Definition same_but_controller_metadata this this' context : Prop :=
  organizationCache_findOne this' = organizationCache_findOne this
  ∧ publicRouteRegex_test this' = publicRouteRegex_test this
  ∧ reflector this' "authorization" (getHandler context)
    = reflector this "authorization" (getHandler context).

Lemma getauthchecksFromCache_handler_only this this' context hs w :
  reflector this "authorization" (getHandler context) = Some hs →
  reflector this' "authorization" (getHandler context) = Some hs →
  getauthchecksFromCache this' context w = getauthchecksFromCache this context w.
Proof.
  intros H H'. unfold getauthchecksFromCache, wrap.
  rewrite !getauthcheck_run. unfold metadata_authchecks, metadata_calls.
  by rewrite H, H'.
Qed.

Lemma canActivate_handler_only this this' context hs w :
  reflector this "authorization" (getHandler context) = Some hs →
  same_but_controller_metadata this this' context →
  canActivate this' context w = canActivate this context w.
Proof.
  intros H (Hf & Hp & Hh). rewrite H in Hh.
  unfold canActivate, try_catch, canActivate_try, bind.
  destruct (getRequest context) as [req|]; [|done]. simpl. rewrite Hp.
  destruct (publicRouteRegex_test this (originalUrl req)); [done|].
  destruct (authorization req) as [a|]; [|done].
  assert (getOrgIdFromSlug this' (params req !! "organizationSlug") w
          = getOrgIdFromSlug this (params req !! "organizationSlug") w) as ->.
  { unfold getOrgIdFromSlug. by rewrite Hf. }
  destruct (getOrgIdFromSlug this (params req !! "organizationSlug") w)
    as [[orgId|e] w1]; [|done].
  by rewrite (getauthchecksFromCache_handler_only this this' context hs w1).
Qed.

(** C6. Handler precedence: when the handler carries rule metadata [hs],
    [getauthcheck] returns exactly [hs] after one metadata read, that of
    the handler: the controller's metadata is not read, hence not merged;
    and the whole decision is the same for every controller-level
    metadata, so a controller-level set that would allow the request
    changes nothing. When the handler carries no metadata, [getauthcheck]
    returns the controller's metadata, read second. *)
Theorem getauthcheck_handler_precedence this context w :
  (∀ hs,
      reflector this "authorization" (getHandler context) = Some hs →
      getauthcheck this context w
      = (Returned (Some hs),
         log_calls [ReflectorGet "authorization" (getHandler context)] w)
      ∧ ∀ this', same_but_controller_metadata this this' context →
                 canActivate this' context w = canActivate this context w)
  ∧ (reflector this "authorization" (getHandler context) = None →
     getauthcheck this context w
     = (Returned (reflector this "authorization" (getClass context)),
        log_calls [ReflectorGet "authorization" (getHandler context);
                   ReflectorGet "authorization" (getClass context)] w)).
Proof.
  split.
  - intros hs H. split.
    + rewrite getauthcheck_run. unfold metadata_authchecks, metadata_calls.
      by rewrite H.
    + intros this'. by apply (canActivate_handler_only this this' context hs).
  - intros H. rewrite getauthcheck_run. unfold metadata_authchecks, metadata_calls.
    by rewrite H.
Qed.

(** Two computations of a route's rule set store the same value under the
    route's key, whenever they happen. *)
Lemma recomputation_stores_same_value this context w1 w2 :
  cached context w1 = None →
  cached context w2 = None →
  snd <$> cacheStore (getauthchecksFromCache this context w1).2
            !! authcheckCacheKey context
  = snd <$> cacheStore (getauthchecksFromCache this context w2).2
              !! authcheckCacheKey context.
Proof.
  intros H1 H2. rewrite !getauthchecksFromCache_miss by done. simpl.
  by rewrite !lookup_insert_eq.
Qed.

(** C9. Idempotent recomputation: the value of [getauthcheck] is a
    function of the handler's and the controller's metadata alone. Two
    runs that see the same metadata return the same ordered rule list,
    whatever the cache holds, whatever the time, whatever was called
    before; and [getauthcheck] always returns, it does not throw. *)
Theorem getauthcheck_deterministic this1 this2 context1 context2 w1 w2 :
  reflector this1 "authorization" (getHandler context1)
  = reflector this2 "authorization" (getHandler context2) →
  reflector this1 "authorization" (getClass context1)
  = reflector this2 "authorization" (getClass context2) →
  (getauthcheck this1 context1 w1).1 = (getauthcheck this2 context2 w2).1
  ∧ ∃ authchecks, (getauthcheck this1 context1 w1).1 = Returned authchecks.
Proof.
  intros Hh Hc. rewrite !getauthcheck_run. simpl. split; [|eauto].
  unfold metadata_authchecks. by rewrite Hh, Hc.
Qed.

(** ** The organization id handed to the rules *)

(** An event that, if it is a call of an authcheck, has argument [args0]. *)
Definition called_with (args0 : AuthCheckParams) (e : Event) : Prop :=
  match e with
  | IsAuthorized _ args => args = args0
  | _ => True
  end.

Lemma called_with_authcheck_calls args0 (rs : list AuthCheckContract) :
  Forall (called_with args0) (authcheck_call args0 <$> rs).
Proof. apply Forall_fmap, Forall_true. by intros c. Qed.

Lemma called_with_org_calls args0 o :
  Forall (called_with args0) (if falsy_string o then [] else [FindOne (default "" o)]).
Proof. destruct (falsy_string o); by repeat constructor. Qed.

Lemma getauthchecksFromCache_calls this context w args0 :
  ∃ rs w2 evs,
    getauthchecksFromCache this context w = (Returned rs, w2)
    ∧ calls w2 = calls w ++ evs
    ∧ Forall (called_with args0) evs.
Proof.
  destruct (cached context w) as [v|] eqn:Hc.
  - exists v, (log_calls [wrap_call context] w), [wrap_call context].
    split; [by apply getauthchecksFromCache_hit|].
    split; [done|]. by repeat constructor.
  - eexists _, _, (wrap_call context :: metadata_calls this context).
    split; [by apply getauthchecksFromCache_miss|].
    split; [done|]. unfold metadata_calls.
    destruct (reflector this "authorization" (getHandler context));
      by repeat constructor.
Qed.

Lemma try_catch_deny_world (m : M bool) w :
  (try_catch m (λ _, ret false) w).2 = (m w).2.
Proof. unfold try_catch, ret. by destruct (m w) as [[b|e] w']. Qed.

(** Every authcheck called during a decision gets the same argument: the
    request's authorization, the organization id that [getOrgIdFromSlug]
    returned, and the [userId] route parameter. *)
Lemma canActivate_calls_args this context req a w args0 :
  getRequest context = Some req →
  publicRouteRegex_test this (originalUrl req) = false →
  authorization req = Some a →
  (∀ orgId,
      (getOrgIdFromSlug this (params req !! "organizationSlug") w).1 = Returned orgId →
      args0 = {| requestingEntity := a;
                 orgIdForTargetResource := orgId;
                 userIdForTargetResource := params req !! "userId" |}) →
  Forall (called_with args0) (calls_since w (canActivate this context w).2).
Proof.
  intros Hr Hp Ha Hargs.
  destruct (getOrgIdFromSlug_frame this (params req !! "organizationSlug") w)
    as (evs1 & Hw1 & Hevs1).
  pose proof (called_with_org_calls args0 (params req !! "organizationSlug")) as Hall1.
  rewrite <- Hevs1 in Hall1. clear Hevs1.
  destruct (getOrgIdFromSlug this (params req !! "organizationSlug") w)
    as [[orgId|e] w1] eqn:Ho; simpl in Hw1; subst w1.
  - specialize (Hargs orgId eq_refl).
    destruct (getauthchecksFromCache_calls this context (log_calls evs1 w) args0)
      as (rs & w2 & evs2 & Hc & Hcalls & Hall2).
    rewrite (canActivate_after_lookups _ _ req a w orgId _ rs w2) by done.
    rewrite <- Hargs. unfold calls_since.
    destruct (no_authchecks rs).
    + simpl. rewrite Hcalls. simpl. rewrite <- app_assoc, drop_app_length.
      by apply Forall_app.
    + rewrite try_catch_deny_world.
      destruct (run_authchecks_frame (default [] rs) args0 w2) as [k ->].
      simpl. rewrite Hcalls. simpl. rewrite <- !app_assoc, drop_app_length.
      apply Forall_app. split; [done|]. apply Forall_app. split; [done|].
      apply called_with_authcheck_calls.
  - rewrite (canActivate_org_lookup_throws _ _ req a w e _) by done.
    simpl. by rewrite calls_since_log_calls.
Qed.

(** The answer of the loop, and of the organization lookup, does not
    depend on the world they run in. *)
Lemma run_authchecks_outcome rs args w w' :
  (run_authchecks rs args w).1 = (run_authchecks rs args w').1.
Proof.
  revert w w'. induction rs as [|c rs IH]; intros w w'; [done|].
  simpl. unfold bind, call.
  destruct (isAuthorized c args) as [[|]|e]; simpl; [apply IH | done | done].
Qed.

Lemma run_authchecks_true rs args w :
  (run_authchecks rs args w).1 = Returned true ↔ Forall (passes args) rs.
Proof.
  split.
  - revert w. induction rs as [|c rs IH]; intros w H; [constructor|].
    simpl in H. unfold bind, call in H.
    destruct (isAuthorized c args) as [[|]|e] eqn:Hc; simpl in H; try done.
    constructor; [exact Hc | by eapply IH].
  - intros H. by rewrite run_authchecks_all_pass.
Qed.

Lemma getOrgIdFromSlug_outcome this o w w' :
  (getOrgIdFromSlug this o w).1 = (getOrgIdFromSlug this o w').1.
Proof.
  unfold getOrgIdFromSlug. destruct (falsy_string o); [done|].
  unfold bind, call. simpl.
  by destruct (organizationCache_findOne this (default "" o)) as [[org|]|e].
Qed.

Lemma try_catch_deny_outcome (m : M bool) w :
  (try_catch m (λ _, ret false) w).1
  = match (m w).1 with
    | Returned b => Returned b
    | Thrown _ => Returned false
    end.
Proof. unfold try_catch, ret. by destruct (m w) as [[b|e] w']. Qed.

(** On a non-empty list the loop calls the first rule at least. *)
Lemma run_authchecks_frame_nonempty rs args w :
  rs ≠ [] →
  ∃ k, 0 < k
       ∧ (run_authchecks rs args w).2
         = log_calls (authcheck_call args <$> take k rs) w.
Proof.
  destruct rs as [|c rs]; [done|]. intros _. simpl. unfold bind, call.
  destruct (isAuthorized c args) as [[|]|e]; simpl.
  - destruct (run_authchecks_frame rs args
                (log_call (IsAuthorized (constructor_name c) args) w)) as [k Hk].
    exists (S k). split; [lia|]. rewrite Hk. simpl.
    by rewrite log_call_log_calls, log_calls_app.
  - exists 1%nat. split; [lia | done].
  - exists 1%nat. split; [lia | done].
Qed.

(** With both lookups done and a non-empty rule list [rs] resolved, the
    decision is the verdict of the rules on the decision's arguments:
    the first rule at least is called, [true] comes with the calls of all
    the rules, and anything but all rules passing gives [false]. *)
Lemma canActivate_verdict this context req a w orgId w1 rs w2 args :
  getRequest context = Some req →
  publicRouteRegex_test this (originalUrl req) = false →
  authorization req = Some a →
  getOrgIdFromSlug this (params req !! "organizationSlug") w = (Returned orgId, w1) →
  getauthchecksFromCache this context w1 = (Returned (Some rs), w2) →
  rs ≠ [] →
  args = {| requestingEntity := a;
            orgIdForTargetResource := orgId;
            userIdForTargetResource := params req !! "userId" |} →
  (∃ k, 0 < k
        ∧ (canActivate this context w).2
          = log_calls (authcheck_call args <$> take k rs) w2)
  ∧ (Forall (passes args) rs →
     canActivate this context w
     = (Returned true, log_calls (authcheck_call args <$> rs) w2))
  ∧ (¬ Forall (passes args) rs → (canActivate this context w).1 = Returned false).
Proof.
  intros Hr Hp Ha Ho Hc Hne ->.
  rewrite (canActivate_after_lookups _ _ req a w orgId w1 (Some rs) w2) by done.
  assert (no_authchecks (Some rs) = false) as -> by (by destruct rs).
  change (default [] (Some rs)) with rs.
  split; [|split].
  - rewrite try_catch_deny_world. by apply run_authchecks_frame_nonempty.
  - intros Hall. unfold try_catch. by rewrite (run_authchecks_all_pass rs _ w2 Hall).
  - intros Hnot. rewrite try_catch_deny_outcome.
    pose proof (run_authchecks_true rs
      {| requestingEntity := a; orgIdForTargetResource := orgId;
         userIdForTargetResource := params req !! "userId" |} w2) as Htrue.
    destruct (run_authchecks rs _ w2).1 as [[|]|e]; try done.
    destruct Hnot. by apply Htrue.
Qed.

(** C7. Organization slug resolution. For a request that reaches the
    lookups: (1) when the [organizationSlug] route parameter is present
    (and not the empty string, which [!organizationSlug] treats as no
    slug) and the repository returns an organization for it, the id
    returned by [getOrgIdFromSlug] is that organization's id; every
    authcheck called during the decision receives it as
    [orgIdForTargetResource]; and, for a non-empty resolved rule list, the
    rules are called with it, the first one at least, the decision being
    [true] after the calls of all the rules when they all return [true]
    on that id, and [false] otherwise; (2) when the parameter is absent or
    empty, or the repository knows no organization for the slug,
    [getOrgIdFromSlug] returns [undefined] without throwing, every
    authcheck called receives [undefined], and evaluation goes on: a
    non-empty rule set whose rules all return [true] yields [true]. *)
Theorem canActivate_organization_id this context req a w :
  getRequest context = Some req →
  publicRouteRegex_test this (originalUrl req) = false →
  authorization req = Some a →
  (∀ slug organization,
      params req !! "organizationSlug" = Some slug →
      slug ≠ "" →
      organizationCache_findOne this slug = Returned (Some organization) →
      (getOrgIdFromSlug this (Some slug) w).1 = Returned (organization_id organization)
      ∧ (∀ name args,
          IsAuthorized name args ∈ calls_since w (canActivate this context w).2 →
          orgIdForTargetResource args = organization_id organization)
      ∧ ∀ rs w2,
          getauthchecksFromCache this context (getOrgIdFromSlug this (Some slug) w).2
          = (Returned (Some rs), w2) →
          rs ≠ [] →
          (∃ k, 0 < k
                ∧ (canActivate this context w).2
                  = log_calls
                      (authcheck_call
                         {| requestingEntity := a;
                            orgIdForTargetResource := organization_id organization;
                            userIdForTargetResource := params req !! "userId" |}
                         <$> take k rs) w2)
          ∧ (Forall (passes {| requestingEntity := a;
                               orgIdForTargetResource := organization_id organization;
                               userIdForTargetResource := params req !! "userId" |})
               rs →
             canActivate this context w
             = (Returned true,
                log_calls
                  (authcheck_call
                     {| requestingEntity := a;
                        orgIdForTargetResource := organization_id organization;
                        userIdForTargetResource := params req !! "userId" |}
                     <$> rs) w2))
          ∧ (¬ Forall (passes {| requestingEntity := a;
                                 orgIdForTargetResource := organization_id organization;
                                 userIdForTargetResource := params req !! "userId" |})
                 rs →
             (canActivate this context w).1 = Returned false))
  ∧ (falsy_string (params req !! "organizationSlug") = true
     ∨ (∃ slug, params req !! "organizationSlug" = Some slug
                ∧ organizationCache_findOne this slug = Returned None) →
     (getOrgIdFromSlug this (params req !! "organizationSlug") w).1 = Returned None
     ∧ (∀ name args,
          IsAuthorized name args ∈ calls_since w (canActivate this context w).2 →
          orgIdForTargetResource args = None)
     ∧ ∀ rs w2,
         getauthchecksFromCache this context
           (getOrgIdFromSlug this (params req !! "organizationSlug") w).2
         = (Returned (Some rs), w2) →
         rs ≠ [] →
         Forall (passes {| requestingEntity := a;
                           orgIdForTargetResource := None;
                           userIdForTargetResource := params req !! "userId" |}) rs →
         canActivate this context w
         = (Returned true,
            log_calls
              (authcheck_call {| requestingEntity := a;
                                 orgIdForTargetResource := None;
                                 userIdForTargetResource := params req !! "userId" |}
                 <$> rs) w2)).
Proof.
  intros Hr Hp Ha.
  assert (∀ o,
    (getOrgIdFromSlug this (params req !! "organizationSlug") w).1 = Returned o →
    ∀ name args,
      IsAuthorized name args ∈ calls_since w (canActivate this context w).2 →
      orgIdForTargetResource args = o) as Hpassed.
  { intros o Ho name args Hin.
    pose proof (canActivate_calls_args this context req a w
      {| requestingEntity := a; orgIdForTargetResource := o;
         userIdForTargetResource := params req !! "userId" |} Hr Hp Ha) as Hall.
    rewrite Forall_forall in Hall.
    assert (called_with
      {| requestingEntity := a; orgIdForTargetResource := o;
         userIdForTargetResource := params req !! "userId" |}
      (IsAuthorized name args)) as Hcw.
    { apply Hall; [|done]. intros o'. rewrite Ho. by intros [= ->]. }
    simpl in Hcw. by rewrite Hcw. }
  split.
  - intros slug organization Hs Hne Hfind.
    assert ((getOrgIdFromSlug this (Some slug) w).1
            = Returned (organization_id organization)) as Ho.
    { rewrite (getOrgIdFromSlug_slug _ _ _ Hne). by rewrite Hfind. }
    split; [done|]. split; [apply Hpassed; by rewrite Hs|].
    intros rs w2 Hc Hrs.
    destruct (getOrgIdFromSlug this (Some slug) w) as [r w1] eqn:Hrun.
    simpl in Ho, Hc. subst r. rewrite <- Hs in Hrun.
    by apply (canActivate_verdict this context req a w
                (organization_id organization) w1 rs w2).
  - intros Hnone.
    assert ((getOrgIdFromSlug this (params req !! "organizationSlug") w).1
            = Returned None) as Ho.
    { destruct Hnone as [Hf | (slug & Hs & Hfind)].
      - by rewrite (getOrgIdFromSlug_no_slug _ _ _ Hf).
      - rewrite Hs. destruct (decide (slug = "")) as [-> | Hne].
        + by rewrite getOrgIdFromSlug_no_slug.
        + rewrite (getOrgIdFromSlug_slug _ _ _ Hne). by rewrite Hfind. }
    split; [done|]. split; [by apply Hpassed|].
    intros rs w2 Hc Hrs Hall.
    destruct (getOrgIdFromSlug this (params req !! "organizationSlug") w)
      as [r w1] eqn:Hrun. simpl in Ho, Hc. subst r.
    rewrite (canActivate_after_lookups _ _ req a w None w1 (Some rs) w2) by done.
    assert (no_authchecks (Some rs) = false) as -> by (by destruct rs).
    unfold try_catch. simpl. by rewrite (run_authchecks_all_pass rs _ w2 Hall).
Qed.

(** ** An empty handler-level rule set *)

Lemma cached_Some context w v :
  cached context w = Some v →
  ∃ expiry, cacheStore w !! authcheckCacheKey context = Some (expiry, v)
            ∧ (now w < expiry)%Z.
Proof.
  unfold cached. intros H.
  destruct (cacheStore w !! authcheckCacheKey context) as [[expiry v']|]; [|done].
  destruct (now w <? expiry)%Z eqn:Hlt; [|done].
  injection H as ->. exists expiry. split; [done|]. by apply Z.ltb_lt.
Qed.

Lemma cached_log_calls context evs w :
  cached context (log_calls evs w) = cached context w.
Proof. done. Qed.


(** ** The rule-set cache *)

(** The counter on the rule source: the metadata reads among some calls. *)
Definition is_reflector_get (e : Event) : bool :=
  match e with
  | ReflectorGet _ _ => true
  | _ => false
  end.

Definition reflector_reads (evs : list Event) : nat :=
  length (List.filter is_reflector_get evs).

Lemma reflector_reads_app evs1 evs2 :
  reflector_reads (evs1 ++ evs2) = reflector_reads evs1 + reflector_reads evs2.
Proof. unfold reflector_reads. by rewrite List.filter_app, length_app. Qed.

Lemma reflector_reads_authcheck_calls args (rs : list AuthCheckContract) :
  reflector_reads (authcheck_call args <$> rs) = 0.
Proof. induction rs as [|c rs IH]; [done|]. exact IH. Qed.

Lemma reflector_reads_org_calls o :
  reflector_reads (if falsy_string o then [] else [FindOne (default "" o)]) = 0.
Proof. by destruct (falsy_string o). Qed.

Lemma reflector_reads_metadata_calls this context :
  0 < reflector_reads (metadata_calls this context).
Proof.
  unfold metadata_calls.
  destruct (reflector this "authorization" (getHandler context));
    unfold reflector_reads; simpl; lia.
Qed.

Lemma reflector_reads_getauthcheck this context w :
  reflector_reads (calls_since w (getauthcheck this context w).2)
  = reflector_reads (metadata_calls this context).
Proof. rewrite getauthcheck_run. simpl. by rewrite calls_since_log_calls. Qed.

Lemma canActivate_after_lookups_world this context req a w orgId w1 rs w2 :
  getRequest context = Some req →
  publicRouteRegex_test this (originalUrl req) = false →
  authorization req = Some a →
  getOrgIdFromSlug this (params req !! "organizationSlug") w = (Returned orgId, w1) →
  getauthchecksFromCache this context w1 = (Returned rs, w2) →
  ∃ k, (canActivate this context w).2
       = log_calls
           (authcheck_call {| requestingEntity := a;
                              orgIdForTargetResource := orgId;
                              userIdForTargetResource := params req !! "userId" |}
              <$> take k (default [] rs)) w2.
Proof.
  intros Hr Hp Ha Ho Hc.
  rewrite (canActivate_after_lookups _ _ req a w orgId w1 rs w2) by done.
  destruct (no_authchecks rs).
  - exists 0%nat. simpl. by rewrite log_calls_nil.
  - rewrite try_catch_deny_world. apply run_authchecks_frame.
Qed.

(** The entry a decision taken in world [w] stores when it computes the
    rule set. *)
Definition stored_by this context w : gmap string (Z * AuthChecks) :=
  <[authcheckCacheKey context :=
      ((now w + authcheck_ttl)%Z, metadata_authchecks this context)]> (cacheStore w).

(** A decision that reaches the lookups: on an unexpired entry it reads
    no metadata and leaves the cache as it is; otherwise it runs
    [getauthcheck] once and stores the result for one week. *)
Lemma canActivate_reached_effect this context req a w orgId :
  getRequest context = Some req →
  publicRouteRegex_test this (originalUrl req) = false →
  authorization req = Some a →
  (getOrgIdFromSlug this (params req !! "organizationSlug") w).1 = Returned orgId →
  now (canActivate this context w).2 = now w
  ∧ ∃ evs, calls (canActivate this context w).2 = calls w ++ evs
      ∧ match cached context w with
        | Some _ =>
            cacheStore (canActivate this context w).2 = cacheStore w
            ∧ reflector_reads evs = 0
        | None =>
            cacheStore (canActivate this context w).2 = stored_by this context w
            ∧ reflector_reads evs = reflector_reads (metadata_calls this context)
        end.
Proof.
  intros Hr Hp Ha Ho.
  destruct (getOrgIdFromSlug_frame this (params req !! "organizationSlug") w)
    as (evs1 & Hw1 & Hevs1).
  pose proof (reflector_reads_org_calls (params req !! "organizationSlug")) as Hreads1.
  rewrite <- Hevs1 in Hreads1. clear Hevs1.
  destruct (getOrgIdFromSlug this (params req !! "organizationSlug") w)
    as [r w1] eqn:Hrun. simpl in Ho, Hw1. subst r w1.
  destruct (cached context w) as [v|] eqn:Hc.
  - destruct (canActivate_after_lookups_world _ _ req a w orgId _ v _ Hr Hp Ha Hrun
                (getauthchecksFromCache_hit this context (log_calls evs1 w) v Hc))
      as [k ->].
    simpl. split; [done|]. eexists. split; [by rewrite <- !app_assoc|].
    split; [done|].
    by rewrite !reflector_reads_app, Hreads1, reflector_reads_authcheck_calls.
  - destruct (canActivate_after_lookups_world _ _ req a w orgId _ _ _ Hr Hp Ha Hrun
                (getauthchecksFromCache_miss this context (log_calls evs1 w) Hc))
      as [k ->].
    simpl. split; [done|]. eexists. split; [by rewrite <- !app_assoc|].
    split; [done|].
    rewrite !reflector_reads_app, Hreads1, reflector_reads_authcheck_calls.
    change (reflector_reads (wrap_call context :: metadata_calls this context))
      with (reflector_reads (metadata_calls this context)).
    lia.
Qed.

(** Any decision: either it reads no metadata and leaves the cache as it
    is, or it found no unexpired entry, ran [getauthcheck] once and
    stored the result. *)
Lemma canActivate_effect this context w :
  now (canActivate this context w).2 = now w
  ∧ ∃ evs, calls (canActivate this context w).2 = calls w ++ evs
      ∧ ((cacheStore (canActivate this context w).2 = cacheStore w
          ∧ reflector_reads evs = 0)
         ∨ (cached context w = None
            ∧ cacheStore (canActivate this context w).2 = stored_by this context w
            ∧ reflector_reads evs = reflector_reads (metadata_calls this context))).
Proof.
  assert (∀ b, canActivate this context w = (Returned b, w) →
    now (canActivate this context w).2 = now w
    ∧ ∃ evs, calls (canActivate this context w).2 = calls w ++ evs
        ∧ ((cacheStore (canActivate this context w).2 = cacheStore w
            ∧ reflector_reads evs = 0)
           ∨ (cached context w = None
              ∧ cacheStore (canActivate this context w).2 = stored_by this context w
              ∧ reflector_reads evs = reflector_reads (metadata_calls this context))))
    as Hsame.
  { intros b ->. simpl. split; [done|]. exists []. rewrite app_nil_r. by eauto. }
  destruct (getRequest context) as [req|] eqn:Hr;
    [|by apply (Hsame false), canActivate_missing_request].
  destruct (publicRouteRegex_test this (originalUrl req)) eqn:Hp.
  { apply (Hsame true), canActivate_of_returned.
    by apply (canActivate_try_public _ _ req). }
  destruct (authorization req) as [a|] eqn:Ha;
    [|by apply (Hsame false), (canActivate_authorization_absent _ _ req)].
  destruct (getOrgIdFromSlug this (params req !! "organizationSlug") w)
    as [[orgId|e] w1] eqn:Ho.
  - destruct (canActivate_reached_effect this context req a w orgId Hr Hp Ha)
      as (Hnow & evs & Hcalls & Hcase); [by rewrite Ho|].
    split; [done|]. exists evs. split; [done|].
    destruct (cached context w); [left | right]; tauto.
  - destruct (getOrgIdFromSlug_frame this (params req !! "organizationSlug") w)
      as (evs1 & Hw1 & Hevs1).
    pose proof (reflector_reads_org_calls (params req !! "organizationSlug")) as Hreads1.
    rewrite <- Hevs1 in Hreads1. rewrite Ho in Hw1. simpl in Hw1. subst w1.
    rewrite (canActivate_org_lookup_throws _ _ req a w e _ Hr Hp Ha Ho).
    simpl. split; [done|]. exists evs1. split; [done|]. by left.
Qed.

Lemma authcheckCacheKey_same context1 context2 :
  getClass context2 = getClass context1 →
  getHandler context2 = getHandler context1 →
  authcheckCacheKey context2 = authcheckCacheKey context1.
Proof. intros Hc Hh. unfold authcheckCacheKey. by rewrite Hc, Hh. Qed.

Lemma metadata_calls_same this context1 context2 :
  getClass context2 = getClass context1 →
  getHandler context2 = getHandler context1 →
  metadata_calls this context2 = metadata_calls this context1.
Proof. intros Hc Hh. unfold metadata_calls. by rewrite Hc, Hh. Qed.

(** After a decision at time [t1] has stored the rule set, the entry is
    unexpired exactly at the times before [t1 + authcheck_ttl]. *)
Lemma cached_after_store this context1 context2 w0 w t1 t2 :
  authcheckCacheKey context2 = authcheckCacheKey context1 →
  cacheStore w = stored_by this context1 (at_time t1 w0) →
  cached context2 (at_time t2 w)
  = if (t2 <? t1 + authcheck_ttl)%Z
    then Some (metadata_authchecks this context1) else None.
Proof.
  intros Hk Hs. unfold cached. simpl. rewrite Hk, Hs. unfold stored_by.
  by rewrite lookup_insert_eq.
Qed.

(** C8. Rule-set caching with a one-week TTL. [getauthchecksFromCache]
    is the cache's [wrap] on the key rendered from the matched class and
    handler, with a TTL of 604800 = 60*60*24*7 seconds. For two successive
    decisions on the same class and handler, the first at time [t1] in
    world [w0] and the second at time [t2]: if [t2] is within the week
    after [t1], the metadata reads of both decisions together are at
    most those of one run of [getauthcheck], so the rule set is computed
    at most once; if the first decision computed the rule set and the
    week has passed at [t2], a second decision that reaches the lookups
    computes it again. *)
Theorem rule_set_cached_one_week this context1 context2 w0 t1 t2 w1 w2 :
  getClass context2 = getClass context1 →
  getHandler context2 = getHandler context1 →
  w1 = (canActivate this context1 (at_time t1 w0)).2 →
  w2 = (canActivate this context2 (at_time t2 w1)).2 →
  (∀ w, getauthchecksFromCache this context1 w
        = wrap ("AuthorizationGuard-authcheck?class=" +:+ fn_text (getClass context1)
                  +:+ "&handler=" +:+ fn_text (getHandler context1) +:+ ")")
            (getauthcheck this context1) 604800 w)
  ∧ ((t2 < t1 + 60 * 60 * 24 * 7)%Z →
     reflector_reads (calls_since w0 w2)
     ≤ reflector_reads (calls_since w0 (getauthcheck this context1 w0).2))
  ∧ ((t1 + 60 * 60 * 24 * 7 ≤ t2)%Z →
     0 < reflector_reads (calls_since w0 w1) →
     ∀ req a orgId,
       getRequest context2 = Some req →
       publicRouteRegex_test this (originalUrl req) = false →
       authorization req = Some a →
       (getOrgIdFromSlug this (params req !! "organizationSlug") (at_time t2 w1)).1
       = Returned orgId →
       0 < reflector_reads (calls_since w1 w2)
       ∧ reflector_reads (calls_since w1 w2)
         = reflector_reads (calls_since w0 (getauthcheck this context1 w0).2)).
Proof.
  intros Hclass Hhandler Hw1 Hw2.
  pose proof (authcheckCacheKey_same _ _ Hclass Hhandler) as Hkey.
  pose proof (metadata_calls_same this _ _ Hclass Hhandler) as Hmc.
  split; [done|].
  rewrite reflector_reads_getauthcheck.
  change (60 * 60 * 24 * 7)%Z with authcheck_ttl.
  destruct (canActivate_effect this context1 (at_time t1 w0))
    as (Hnow1 & evs1 & Hcalls1 & Hcase1).
  rewrite <- Hw1 in Hnow1, Hcalls1, Hcase1. simpl in Hnow1, Hcalls1.
  assert (calls_since w0 w1 = evs1) as Hd1.
  { unfold calls_since. rewrite Hcalls1. apply drop_app_length. }
  split.
  - intros Hlt.
    destruct (canActivate_effect this context2 (at_time t2 w1))
      as (_ & evs2 & Hcalls2 & Hcase2).
    rewrite <- Hw2 in Hcalls2, Hcase2. simpl in Hcalls2.
    assert (calls_since w0 w2 = evs1 ++ evs2) as ->.
    { unfold calls_since. rewrite Hcalls2, Hcalls1, <- app_assoc.
      apply drop_app_length. }
    rewrite reflector_reads_app.
    destruct Hcase1 as [(_ & Hreads1) | (_ & Hstore1 & Hreads1)].
    + destruct Hcase2 as [(_ & Hreads2) | (_ & _ & Hreads2)]; rewrite ?Hmc in *; lia.
    + destruct Hcase2 as [(_ & Hreads2) | (Hmiss & _)]; [lia|].
      rewrite (cached_after_store this context1 context2 w0 w1 t1 t2 Hkey Hstore1)
        in Hmiss.
      apply Z.ltb_lt in Hlt. by rewrite Hlt in Hmiss.
  - intros Hge Hcomputed req a orgId Hr Hp Ha Ho.
    rewrite Hd1 in Hcomputed.
    destruct Hcase1 as [(_ & Hreads1) | (_ & Hstore1 & _)]; [lia|].
    pose proof (cached_after_store this context1 context2 w0 w1 t1 t2 Hkey Hstore1)
      as Hmiss.
    apply Z.ltb_ge in Hge. rewrite Hge in Hmiss.
    destruct (canActivate_reached_effect this context2 req a (at_time t2 w1) orgId
                Hr Hp Ha Ho) as (_ & evs2 & Hcalls2 & Hcase2).
    rewrite Hmiss in Hcase2. rewrite <- Hw2 in Hcalls2, Hcase2. simpl in Hcalls2.
    assert (calls_since w1 w2 = evs2) as ->.
    { unfold calls_since. rewrite Hcalls2. apply drop_app_length. }
    destruct Hcase2 as (_ & ->). rewrite Hmc. split; [|done].
    apply reflector_reads_metadata_calls.
Qed.

(** ** Error containment, source by source *)

(** C2. Error containment. [canActivate] always returns a boolean: it
    never throws. Each exception of the decision is caught and turned
    into [false], never into [true]: (1) a missing request object makes
    the [try] block throw the guard's own error, and the decision is
    [false]; (2) a throwing organization lookup makes the [try] block
    throw that error, and the decision is [false], before the cache is
    asked; (3) a throwing rule, reached after rules that return [true],
    makes the [try] block throw that error, and the decision is [false],
    no later rule being called; (4) whatever else the [try] block throws,
    the decision is [false]. *)
Theorem canActivate_contains_errors this context w :
  (∃ b w', canActivate this context w = (Returned b, w'))
  ∧ (getRequest context = None →
     canActivate_try this context w
     = (Thrown (BadGatewayHttpError "request can not be null"), w)
     ∧ canActivate this context w = (Returned false, w))
  ∧ (∀ req a slug e,
       getRequest context = Some req →
       publicRouteRegex_test this (originalUrl req) = false →
       authorization req = Some a →
       params req !! "organizationSlug" = Some slug →
       slug ≠ "" →
       organizationCache_findOne this slug = Thrown e →
       canActivate_try this context w = (Thrown e, log_call (FindOne slug) w)
       ∧ canActivate this context w = (Returned false, log_call (FindOne slug) w))
  ∧ (∀ req a orgId w1 pre r post w2 e,
       getRequest context = Some req →
       publicRouteRegex_test this (originalUrl req) = false →
       authorization req = Some a →
       getOrgIdFromSlug this (params req !! "organizationSlug") w
       = (Returned orgId, w1) →
       getauthchecksFromCache this context w1
       = (Returned (Some (pre ++ r :: post)), w2) →
       Forall (passes {| requestingEntity := a;
                         orgIdForTargetResource := orgId;
                         userIdForTargetResource := params req !! "userId" |}) pre →
       isAuthorized r {| requestingEntity := a;
                         orgIdForTargetResource := orgId;
                         userIdForTargetResource := params req !! "userId" |}
       = Thrown e →
       (canActivate_try this context w).1 = Thrown e
       ∧ canActivate this context w
         = (Returned false,
            log_calls
              (authcheck_call {| requestingEntity := a;
                                 orgIdForTargetResource := orgId;
                                 userIdForTargetResource := params req !! "userId" |}
                 <$> (pre ++ [r])) w2))
  ∧ (∀ e w', canActivate_try this context w = (Thrown e, w') →
             canActivate this context w = (Returned false, w')).
Proof.
  split; [|split; [|split; [|split]]].
  - unfold canActivate, try_catch.
    destruct (canActivate_try this context w) as [[b | e] w']; eauto.
  - intros Hr. split; [by apply canActivate_try_no_request|].
    by apply canActivate_missing_request.
  - intros req a slug e Hr Hp Ha Hs Hne Hf.
    assert (getOrgIdFromSlug this (params req !! "organizationSlug") w
            = (Thrown e, log_call (FindOne slug) w)) as Ho.
    { rewrite Hs, (getOrgIdFromSlug_slug _ _ _ Hne). by rewrite Hf. }
    split; [|by apply (canActivate_org_lookup_throws _ _ req a w e)].
    rewrite (canActivate_try_authorized _ _ req a) by done.
    unfold bind. by rewrite Ho.
  - intros req a orgId w1 pre r post w2 e Hr Hp Ha Ho Hc Hpre Hthrow.
    assert (no_authchecks (Some (pre ++ r :: post)) = false) as Hne
      by (by destruct pre).
    split.
    + rewrite (canActivate_try_authorized _ _ req a) by done.
      unfold bind. rewrite Ho, Hc, Hne. simpl.
      by rewrite (run_authchecks_first_throw pre r post _ e w2 Hpre Hthrow).
    + rewrite (canActivate_after_lookups _ _ req a w orgId w1 _ w2) by done.
      rewrite Hne. unfold try_catch. simpl.
      by rewrite (run_authchecks_first_throw pre r post _ e w2 Hpre Hthrow).
  - intros e w'. apply canActivate_of_thrown.
Qed.

(** ** The ways the [try] block throws *)

(** A throwing organization repository and a throwing authcheck, each
    caught and denied. (The missing request object is
    [canActivate_missing_request].) *)
Lemma canActivate_repository_throws this context req a slug e w :
  getRequest context = Some req →
  publicRouteRegex_test this (originalUrl req) = false →
  authorization req = Some a →
  params req !! "organizationSlug" = Some slug →
  slug ≠ "" →
  organizationCache_findOne this slug = Thrown e →
  canActivate_try this context w = (Thrown e, log_call (FindOne slug) w)
  ∧ canActivate this context w = (Returned false, log_call (FindOne slug) w).
Proof.
  intros Hr Hp Ha Hs Hne Hf.
  assert (getOrgIdFromSlug this (params req !! "organizationSlug") w
          = (Thrown e, log_call (FindOne slug) w)) as Ho.
  { rewrite Hs, (getOrgIdFromSlug_slug _ _ _ Hne). by rewrite Hf. }
  split; [|by apply (canActivate_org_lookup_throws _ _ req a w e)].
  rewrite (canActivate_try_authorized _ _ req a) by done.
  unfold bind. by rewrite Ho.
Qed.

Lemma canActivate_authcheck_throws this context req a w orgId w1 pre r post w2 e :
  getRequest context = Some req →
  publicRouteRegex_test this (originalUrl req) = false →
  authorization req = Some a →
  getOrgIdFromSlug this (params req !! "organizationSlug") w = (Returned orgId, w1) →
  getauthchecksFromCache this context w1 = (Returned (Some (pre ++ r :: post)), w2) →
  Forall (passes {| requestingEntity := a;
                    orgIdForTargetResource := orgId;
                    userIdForTargetResource := params req !! "userId" |}) pre →
  isAuthorized r {| requestingEntity := a;
                    orgIdForTargetResource := orgId;
                    userIdForTargetResource := params req !! "userId" |} = Thrown e →
  (canActivate_try this context w).1 = Thrown e
  ∧ (canActivate this context w).1 = Returned false.
Proof.
  intros Hr Hp Ha Ho Hc Hpre Hthrow.
  assert (no_authchecks (Some (pre ++ r :: post)) = false) as Hne by (by destruct pre).
  split.
  - rewrite (canActivate_try_authorized _ _ req a) by done.
    unfold bind. rewrite Ho, Hc, Hne. simpl.
    by rewrite (run_authchecks_first_throw pre r post _ e w2 Hpre Hthrow).
  - rewrite (canActivate_after_lookups _ _ req a w orgId w1 _ w2) by done.
    rewrite Hne. unfold try_catch. simpl.
    by rewrite (run_authchecks_first_throw pre r post _ e w2 Hpre Hthrow).
Qed.

(** ** Further properties of a decision *)

(** X1. A throwing rule stops the loop: when the rules before [r] return
    [true] and [r] throws, [canActivate] returns [false], the rules called
    are those before [r] and [r] itself, in order, and no rule after [r]
    is called. *)
Theorem canActivate_throwing_rule_stops
  this context req a w orgId w1 pre r post w2 e args :
  getRequest context = Some req →
  publicRouteRegex_test this (originalUrl req) = false →
  authorization req = Some a →
  getOrgIdFromSlug this (params req !! "organizationSlug") w = (Returned orgId, w1) →
  getauthchecksFromCache this context w1 = (Returned (Some (pre ++ r :: post)), w2) →
  args = {| requestingEntity := a;
            orgIdForTargetResource := orgId;
            userIdForTargetResource := params req !! "userId" |} →
  Forall (passes args) pre →
  isAuthorized r args = Thrown e →
  canActivate this context w
  = (Returned false, log_calls (authcheck_call args <$> (pre ++ [r])) w2).
Proof.
  intros Hr Hp Ha Ho Hc -> Hpre Hthrow.
  rewrite (canActivate_after_lookups _ _ req a w orgId w1 _ w2) by done.
  assert (no_authchecks (Some (pre ++ r :: post)) = false) as -> by (by destruct pre).
  unfold try_catch. simpl.
  by rewrite (run_authchecks_first_throw pre r post _ e w2 Hpre Hthrow).
Qed.

(** X2. A failing organization repository denies the request before the
    cache is asked: the only call of the decision is the [findOne], the
    cache store is as it was, and neither the reflector nor any rule is
    reached. *)
Theorem canActivate_repository_failure this context req a slug e w :
  getRequest context = Some req →
  publicRouteRegex_test this (originalUrl req) = false →
  authorization req = Some a →
  params req !! "organizationSlug" = Some slug →
  slug ≠ "" →
  organizationCache_findOne this slug = Thrown e →
  (canActivate this context w).1 = Returned false
  ∧ calls_since w (canActivate this context w).2 = [FindOne slug]
  ∧ cacheStore (canActivate this context w).2 = cacheStore w.
Proof.
  intros Hr Hp Ha Hs Hne Hf.
  assert (getOrgIdFromSlug this (params req !! "organizationSlug") w
          = (Thrown e, log_call (FindOne slug) w)) as Ho.
  { rewrite Hs, (getOrgIdFromSlug_slug _ _ _ Hne). by rewrite Hf. }
  rewrite (canActivate_org_lookup_throws _ _ req a w e _ Hr Hp Ha Ho). simpl.
  split; [done|]. split; [|done].
  by rewrite log_call_log_calls, calls_since_log_calls.
Qed.

(** X3. When the repository is asked: for an absent slug and for the
    empty string, [getOrgIdFromSlug] returns [undefined] and leaves the
    world as it was, whatever the repository holds; for any other slug it
    makes exactly one [findOne] call, with that slug, and changes neither
    cache nor clock. *)
Theorem getOrgIdFromSlug_repository_calls this w :
  getOrgIdFromSlug this None w = (Returned None, w)
  ∧ getOrgIdFromSlug this (Some "") w = (Returned None, w)
  ∧ ∀ slug, slug ≠ "" →
      (getOrgIdFromSlug this (Some slug) w).2 = log_calls [FindOne slug] w
      ∧ (getOrgIdFromSlug this (Some slug) w).1
        = match organizationCache_findOne this slug with
          | Returned (Some organization) => Returned (organization_id organization)
          | Returned None => Returned None
          | Thrown e => Thrown e
          end.
Proof.
  split; [done|]. split; [done|].
  intros slug Hne. rewrite (getOrgIdFromSlug_slug _ _ _ Hne).
  by destruct (organizationCache_findOne this slug) as [[org|]|e].
Qed.

(** X4. What the rules are given: every authcheck called during a
    decision receives the request's own authorization as
    [requestingEntity] and the [userId] route parameter, as it stands
    (absent, empty or not), as [userIdForTargetResource]. *)
Theorem canActivate_rule_arguments this context req a w :
  getRequest context = Some req →
  publicRouteRegex_test this (originalUrl req) = false →
  authorization req = Some a →
  ∀ name args,
    IsAuthorized name args ∈ calls_since w (canActivate this context w).2 →
    requestingEntity args = a
    ∧ userIdForTargetResource args = params req !! "userId".
Proof.
  intros Hr Hp Ha name args Hin.
  set (o := match (getOrgIdFromSlug this (params req !! "organizationSlug") w).1 with
            | Returned orgId => orgId
            | Thrown _ => None
            end).
  pose proof (canActivate_calls_args this context req a w
    {| requestingEntity := a; orgIdForTargetResource := o;
       userIdForTargetResource := params req !! "userId" |} Hr Hp Ha) as Hall.
  rewrite Forall_forall in Hall.
  assert (called_with
    {| requestingEntity := a; orgIdForTargetResource := o;
       userIdForTargetResource := params req !! "userId" |}
    (IsAuthorized name args)) as Hcw.
  { apply Hall; [|done]. intros orgId Ho. unfold o. by rewrite Ho. }
  simpl in Hcw. by rewrite Hcw.
Qed.

(** X5. When the guard allows: [canActivate] returns [true] exactly when
    there is a request and either its url is public, or it carries an
    authorization, the organization lookup returns, the rule set resolved
    from the cache is a non-empty list, and every rule of it returns
    [true] on the decision's arguments. *)
Theorem canActivate_allows_iff this context w :
  (canActivate this context w).1 = Returned true
  ↔ ∃ req,
      getRequest context = Some req
      ∧ (publicRouteRegex_test this (originalUrl req) = true
         ∨ ∃ a orgId rs,
             publicRouteRegex_test this (originalUrl req) = false
             ∧ authorization req = Some a
             ∧ (getOrgIdFromSlug this (params req !! "organizationSlug") w).1
               = Returned orgId
             ∧ (getauthchecksFromCache this context
                  (getOrgIdFromSlug this (params req !! "organizationSlug") w).2).1
               = Returned (Some rs)
             ∧ rs ≠ []
             ∧ Forall (passes {| requestingEntity := a;
                                 orgIdForTargetResource := orgId;
                                 userIdForTargetResource := params req !! "userId" |})
                 rs).
Proof.
  split.
  - intros H.
    destruct (getRequest context) as [req|] eqn:Hr;
      [|by rewrite canActivate_missing_request in H].
    exists req. split; [done|].
    destruct (publicRouteRegex_test this (originalUrl req)) eqn:Hp; [by left | right].
    destruct (authorization req) as [a|] eqn:Ha;
      [|by rewrite (canActivate_authorization_absent _ _ req) in H].
    destruct (getOrgIdFromSlug this (params req !! "organizationSlug") w)
      as [[orgId|e] w1] eqn:Ho;
      [|by rewrite (canActivate_org_lookup_throws _ _ req a w e w1) in H].
    destruct (getauthchecksFromCache this context w1) as [[rs|e] w2] eqn:Hc.
    + rewrite (canActivate_after_lookups _ _ req a w orgId w1 rs w2) in H by done.
      destruct rs as [[|c rs]|]; [done| |done].
      change (no_authchecks (Some (c :: rs))) with false in H. cbv iota in H.
      change (default [] (Some (c :: rs))) with (c :: rs) in H.
      rewrite try_catch_deny_outcome in H.
      exists a, orgId, (c :: rs). simpl. rewrite Hc. simpl.
      repeat (split; [done|]).
      apply (run_authchecks_true _ _ w2).
      by destruct (run_authchecks (c :: rs) _ w2).1 as [b|e'].
    + unfold canActivate, try_catch in H.
      rewrite (canActivate_try_authorized _ _ req a) in H by done.
      unfold bind in H. by rewrite Ho, Hc in H.
  - intros (req & Hr & [Hp | (a & orgId & rs & Hp & Ha & Ho & Hc & Hne & Hall)]).
    + by rewrite (canActivate_of_returned _ _ _ true w
                    (canActivate_try_public _ _ req w Hr Hp)).
    + destruct (getOrgIdFromSlug this (params req !! "organizationSlug") w)
        as [r w1] eqn:Hrun. simpl in Ho, Hc. subst r.
      destruct (getauthchecksFromCache this context w1) as [r w2] eqn:Hrun2.
      simpl in Hc. subst r.
      rewrite (canActivate_after_lookups _ _ req a w orgId w1 (Some rs) w2) by done.
      assert (no_authchecks (Some rs) = false) as -> by (by destruct rs).
      rewrite try_catch_deny_outcome. simpl.
      by rewrite (run_authchecks_all_pass rs _ w2 Hall).
Qed.

(** ** Further properties of the cache *)

(** X6. What a decision does to the shared state: it never moves the
    clock, it only appends to the call log, it leaves every cache entry
    under another key as it was, and under the route's own key it either
    changes nothing or stores what [getauthcheck] computes, to expire
    604800 seconds later. *)
Theorem canActivate_frame this context w :
  now (canActivate this context w).2 = now w
  ∧ (∃ evs, calls (canActivate this context w).2 = calls w ++ evs)
  ∧ (∀ key, key ≠ authcheckCacheKey context →
            cacheStore (canActivate this context w).2 !! key = cacheStore w !! key)
  ∧ (cacheStore (canActivate this context w).2 !! authcheckCacheKey context
     = cacheStore w !! authcheckCacheKey context
     ∨ ∃ v, (getauthcheck this context w).1 = Returned v
            ∧ cacheStore (canActivate this context w).2 !! authcheckCacheKey context
              = Some ((now w + 604800)%Z, v)).
Proof.
  destruct (canActivate_effect this context w)
    as (Hnow & evs & Hcalls & [(Hsame & _) | (_ & Hstore & _)]).
  - rewrite Hsame. split; [done|]. split; [by exists evs|]. split; [done | by left].
  - rewrite Hstore. unfold stored_by. split; [done|]. split; [by exists evs|]. split.
    + intros key Hne. by rewrite lookup_insert_ne.
    + right. exists (metadata_authchecks this context).
      rewrite getauthcheck_run, lookup_insert_eq. done.
Qed.

(** The cache holds, for the route of [context], nothing but what
    [getauthcheck] computes for it. *)
Definition cache_coherent this context w : Prop :=
  ∀ expiry v,
    cacheStore w !! authcheckCacheKey context = Some (expiry, v) →
    (getauthcheck this context w).1 = Returned v.

Lemma cache_coherent_metadata this context w :
  cache_coherent this context w
  ↔ ∀ expiry v,
      cacheStore w !! authcheckCacheKey context = Some (expiry, v) →
      v = metadata_authchecks this context.
Proof.
  unfold cache_coherent.
  split; intros H expiry v Hl; specialize (H expiry v Hl);
    rewrite getauthcheck_run in *; simpl in *; congruence.
Qed.

Lemma metadata_authchecks_same this context1 context2 :
  getClass context2 = getClass context1 →
  getHandler context2 = getHandler context1 →
  metadata_authchecks this context2 = metadata_authchecks this context1.
Proof. intros Hc Hh. unfold metadata_authchecks. by rewrite Hc, Hh. Qed.

(** X7. Coherence is an invariant: if the cache holds for a route only
    what [getauthcheck] computes for it, it still does after any decision
    of the same guard, taken for any request on that route or on a route
    with another cache key, and after any passage of time. *)
Theorem cache_coherent_preserved this context context' w t :
  (getClass context' = getClass context ∧ getHandler context' = getHandler context)
  ∨ authcheckCacheKey context' ≠ authcheckCacheKey context →
  cache_coherent this context w →
  cache_coherent this context (at_time t (canActivate this context' w).2).
Proof.
  rewrite !cache_coherent_metadata. intros Hroute Hcoh expiry v. simpl.
  destruct (canActivate_effect this context' w)
    as (_ & evs & _ & [(-> & _) | (_ & -> & _)]); [by apply Hcoh|].
  unfold stored_by.
  destruct Hroute as [[Hc Hh] | Hne].
  - rewrite (authcheckCacheKey_same context context' Hc Hh), lookup_insert_eq.
    intros [= _ <-]. by apply metadata_authchecks_same.
  - rewrite lookup_insert_ne by done. by apply Hcoh.
Qed.

Lemma getauthchecksFromCache_coherent this context w evs :
  cache_coherent this context w →
  ∃ w2, getauthchecksFromCache this context (log_calls evs w)
        = (Returned (metadata_authchecks this context), w2).
Proof.
  rewrite cache_coherent_metadata. intros Hcoh.
  destruct (cached context (log_calls evs w)) as [v|] eqn:Hc.
  - eexists. rewrite (getauthchecksFromCache_hit this context _ v Hc).
    rewrite cached_log_calls in Hc.
    destruct (cached_Some _ _ _ Hc) as (expiry & Hlook & _).
    by rewrite (Hcoh expiry v Hlook).
  - eexists. by rewrite (getauthchecksFromCache_miss this context _ Hc).
Qed.

(** The guarded loop answers [true] when every rule passes and [false]
    otherwise, so two rule lists that pass together answer alike. *)
Lemma guarded_loop_outcome rs rs' args w w' :
  (Forall (passes args) rs ↔ Forall (passes args) rs') →
  (try_catch (run_authchecks rs args) (λ _, ret false) w).1
  = (try_catch (run_authchecks rs' args) (λ _, ret false) w').1.
Proof.
  intros Hiff. rewrite !try_catch_deny_outcome.
  pose proof (run_authchecks_true rs args w) as H.
  pose proof (run_authchecks_true rs' args w') as H'.
  destruct (run_authchecks rs args w).1 as [[|]|e];
    destruct (run_authchecks rs' args w').1 as [[|]|e']; try done.
  all: try (assert (Returned true = Returned true) as Heq by done;
            first [ apply H in Heq; apply Hiff in Heq; by apply H' in Heq
                  | apply H' in Heq; apply Hiff in Heq; by apply H in Heq ]).
Qed.

(** Two guards with the same repository and public-route pattern, in
    worlds coherent for each, decide alike as soon as their rule sets are
    empty together and pass together. *)
Lemma canActivate_outcome_related this this' context w w' :
  organizationCache_findOne this' = organizationCache_findOne this →
  publicRouteRegex_test this' = publicRouteRegex_test this →
  cache_coherent this context w →
  cache_coherent this' context w' →
  no_authchecks (metadata_authchecks this' context)
  = no_authchecks (metadata_authchecks this context) →
  (∀ args,
      Forall (passes args) (default [] (metadata_authchecks this context))
      ↔ Forall (passes args) (default [] (metadata_authchecks this' context))) →
  (canActivate this context w).1 = (canActivate this' context w').1.
Proof.
  intros Hf Hpub Hcoh Hcoh' Hempty Hpass.
  destruct (getRequest context) as [req|] eqn:Hr;
    [|by rewrite !canActivate_missing_request].
  destruct (publicRouteRegex_test this (originalUrl req)) eqn:Hp.
  { assert (publicRouteRegex_test this' (originalUrl req) = true) as Hp'
      by (by rewrite Hpub).
    rewrite (canActivate_of_returned _ _ _ true _
               (canActivate_try_public this _ req w Hr Hp)).
    by rewrite (canActivate_of_returned _ _ _ true _
                  (canActivate_try_public this' _ req w' Hr Hp')). }
  assert (publicRouteRegex_test this' (originalUrl req) = false) as Hp'
    by (by rewrite Hpub).
  destruct (authorization req) as [a|] eqn:Ha;
    [|by rewrite !(canActivate_authorization_absent _ _ req)].
  assert ((getOrgIdFromSlug this (params req !! "organizationSlug") w).1
          = (getOrgIdFromSlug this' (params req !! "organizationSlug") w').1) as Hout.
  { rewrite (getOrgIdFromSlug_outcome this _ w w').
    unfold getOrgIdFromSlug. by rewrite Hf. }
  destruct (getOrgIdFromSlug_frame this (params req !! "organizationSlug") w)
    as (evs & Hw1 & _).
  destruct (getOrgIdFromSlug_frame this' (params req !! "organizationSlug") w')
    as (evs' & Hw1' & _).
  destruct (getOrgIdFromSlug this (params req !! "organizationSlug") w)
    as [r w1] eqn:Ho.
  destruct (getOrgIdFromSlug this' (params req !! "organizationSlug") w')
    as [r' w1'] eqn:Ho'.
  simpl in Hout, Hw1, Hw1'. subst r' w1 w1'.
  destruct r as [orgId|e].
  - destruct (getauthchecksFromCache_coherent this context w evs Hcoh) as [w2 Hc].
    destruct (getauthchecksFromCache_coherent this' context w' evs' Hcoh') as [w2' Hc'].
    rewrite (canActivate_after_lookups _ _ req a w orgId _ _ w2 Hr Hp Ha Ho Hc).
    rewrite (canActivate_after_lookups _ _ req a w' orgId _ _ w2' Hr Hp' Ha Ho' Hc').
    rewrite Hempty.
    destruct (no_authchecks (metadata_authchecks this context)); [done|].
    apply guarded_loop_outcome, Hpass.
  - rewrite (canActivate_org_lookup_throws _ _ req a w e _ Hr Hp Ha Ho).
    by rewrite (canActivate_org_lookup_throws _ _ req a w' e _ Hr Hp' Ha Ho').
Qed.

(** X8. The cache is transparent: in any two worlds whose caches are
    coherent for the route, whatever else they hold, whatever the time
    and the call history, [canActivate] takes the same decision. *)
Theorem canActivate_cache_transparent this context w w' :
  cache_coherent this context w →
  cache_coherent this context w' →
  (canActivate this context w).1 = (canActivate this context w').1.
Proof.
  intros Hcoh Hcoh'. by apply canActivate_outcome_related.
Qed.

(** X11. The order of the rules decides which rules are called, never
    the decision: two guards that differ only in the handler-level rule
    lists of the route, the two lists holding the same rules in any order
    and any multiplicity, take the same decision on every request (the
    caches being coherent for each). *)
Theorem canActivate_rule_order_irrelevant this this' context w w' hs hs' :
  organizationCache_findOne this' = organizationCache_findOne this →
  publicRouteRegex_test this' = publicRouteRegex_test this →
  reflector this "authorization" (getHandler context) = Some hs →
  reflector this' "authorization" (getHandler context) = Some hs' →
  (∀ c, c ∈ hs ↔ c ∈ hs') →
  cache_coherent this context w →
  cache_coherent this' context w' →
  (canActivate this context w).1 = (canActivate this' context w').1.
Proof.
  intros Hf Hpub Hh Hh' Hsame Hcoh Hcoh'.
  apply canActivate_outcome_related; try done;
    unfold metadata_authchecks; rewrite Hh, Hh'; simpl.
  - destruct hs as [|c hs], hs' as [|c' hs']; try done.
    + by destruct (proj2 (Hsame c') (list_elem_of_here _ _)) .
    + by destruct (proj1 (Hsame c) (list_elem_of_here _ _)).
  - intros args. rewrite !Forall_forall. split; intros H c Hc; apply H, Hsame, Hc.
Qed.

(** X9. The order of the calls of a decision that reaches the lookups:
    first the repository, if there is a slug to look up; then the cache,
    exactly once; then the metadata reads of one run of [getauthcheck],
    or none; then rules, a prefix of the resolved list in list order.
    Nothing else is called. *)
Theorem canActivate_call_order this context req a w orgId rs :
  getRequest context = Some req →
  publicRouteRegex_test this (originalUrl req) = false →
  authorization req = Some a →
  (getOrgIdFromSlug this (params req !! "organizationSlug") w).1 = Returned orgId →
  (getauthchecksFromCache this context
     (getOrgIdFromSlug this (params req !! "organizationSlug") w).2).1
  = Returned rs →
  ∃ reads k,
    calls_since w (canActivate this context w).2
    = (if falsy_string (params req !! "organizationSlug") then []
       else [FindOne (default "" (params req !! "organizationSlug"))])
      ++ [Wrap (authcheckCacheKey context) 604800]
      ++ reads
      ++ (authcheck_call {| requestingEntity := a;
                            orgIdForTargetResource := orgId;
                            userIdForTargetResource := params req !! "userId" |}
            <$> take k (default [] rs))
    ∧ (reads = [] ∨ reads = calls_since w (getauthcheck this context w).2).
Proof.
  intros Hr Hp Ha Ho Hrs.
  destruct (getOrgIdFromSlug_frame this (params req !! "organizationSlug") w)
    as (evs1 & Hw1 & <-).
  destruct (getOrgIdFromSlug this (params req !! "organizationSlug") w)
    as [r w1] eqn:Hrun. simpl in Ho, Hw1, Hrs. subst r w1.
  destruct (cached context (log_calls evs1 w)) as [v|] eqn:Hc.
  - pose proof (getauthchecksFromCache_hit this context _ v Hc) as Hhit.
    rewrite Hhit in Hrs. injection Hrs as ->.
    destruct (canActivate_after_lookups_world _ _ req a w orgId _ rs _
                Hr Hp Ha Hrun Hhit) as [k ->].
    exists [], k. split; [|by left].
    rewrite !log_calls_app. by rewrite calls_since_log_calls.
  - pose proof (getauthchecksFromCache_miss this context _ Hc) as Hmiss.
    rewrite Hmiss in Hrs. injection Hrs as <-.
    destruct (canActivate_after_lookups_world _ _ req a w orgId _ _ _
                Hr Hp Ha Hrun Hmiss) as [k ->].
    exists (metadata_calls this context), k. split.
    + unfold calls_since. simpl. rewrite <- !app_assoc. by rewrite drop_app_length.
    + right. rewrite getauthcheck_run. simpl. by rewrite calls_since_log_calls.
Qed.

(** X10. The cache key is made of the texts of the class and of the
    handler, not of the functions themselves: once a rule set has been
    computed for one route, a route whose class and handler render to
    the same texts gets that rule set from the cache for a week, its own
    metadata not being read, whatever guard asks. *)
Theorem getauthchecksFromCache_shared_by_text this this' context1 context2 w t2 :
  fn_text (getClass context2) = fn_text (getClass context1) →
  fn_text (getHandler context2) = fn_text (getHandler context1) →
  cacheStore w !! authcheckCacheKey context1 = None →
  (t2 < now w + 604800)%Z →
  getauthchecksFromCache this' context2
    (at_time t2 (getauthchecksFromCache this context1 w).2)
  = ((getauthcheck this context1 w).1,
     log_call (Wrap (authcheckCacheKey context2) 604800)
       (at_time t2 (getauthchecksFromCache this context1 w).2)).
Proof.
  intros Hc Hh Hnone Hlt.
  assert (authcheckCacheKey context2 = authcheckCacheKey context1) as Hkey.
  { unfold authcheckCacheKey. by rewrite Hc, Hh. }
  assert (cached context1 w = None) as Hmiss by (unfold cached; by rewrite Hnone).
  rewrite (getauthchecksFromCache_miss this context1 w Hmiss), getauthcheck_run.
  simpl. rewrite log_call_log_calls.
  apply getauthchecksFromCache_hit.
  unfold cached. simpl. rewrite Hkey, lookup_insert_eq.
  apply Z.ltb_lt in Hlt. unfold authcheck_ttl.
  change (60 * 60 * 24 * 7)%Z with 604800%Z. by rewrite Hlt.
Qed.

End Guard.

(** ** Concrete runs

    A controller [CatsController] with a handler [findAll], requesters
    named by a string, an organization repository that knows the slug
    [acme] and fails on the slug [broken], and every path under [/public]
    public. *)

Definition CatsController : FunctionRef :=
  {| fn_ident := 1; fn_text := "class CatsController" |}.

Definition findAll : FunctionRef :=
  {| fn_ident := 2; fn_text := "findAll" |}.

Definition AlwaysTrueAuthCheck : @AuthCheckContract string :=
  {| constructor_name := "AlwaysTrueAuthCheck";
     isAuthorized := λ _, Returned true |}.

Definition AlwaysFalseAuthCheck : @AuthCheckContract string :=
  {| constructor_name := "AlwaysFalseAuthCheck";
     isAuthorized := λ _, Returned false |}.

Definition FailingAuthCheck : @AuthCheckContract string :=
  {| constructor_name := "FailingAuthCheck";
     isAuthorized := λ _, Thrown (CollaboratorError "authcheck failed") |}.

(** The guard of the sample application, for given handler-level and
    controller-level metadata. *)
Definition sample_guard (onHandler onController : @AuthChecks string)
  : @AuthorizationGuard string :=
  {| reflector := λ metadataKey target,
       if String.eqb metadataKey "authorization" then
         if Nat.eqb (fn_ident target) 2 then onHandler
         else if Nat.eqb (fn_ident target) 1 then onController
         else None
       else None;
     organizationCache_findOne := λ slug,
       if String.eqb slug "acme"
       then Returned (Some {| organization_id := Some "org_1" |})
       else if String.eqb slug "broken"
       then Thrown (CollaboratorError "repository unavailable")
       else Returned None;
     publicRouteRegex_test := λ url, String.prefix "/public" url |}.

Definition sample_context (req : option (@Request string)) : @ExecutionContext string :=
  {| getRequest := req; getClass := CatsController; getHandler := findAll |}.

Definition public_request : @Request string :=
  {| originalUrl := "/public/health"; authorization := Some "alice"; params := ∅ |}.

Definition anonymous_request : @Request string :=
  {| originalUrl := "/cats"; authorization := None; params := ∅ |}.

Definition plain_request : @Request string :=
  {| originalUrl := "/cats"; authorization := Some "alice"; params := ∅ |}.

Definition slug_request (slug : string) : @Request string :=
  {| originalUrl := "/organization/cats";
     authorization := Some "alice";
     params := <["userId" := "u42"]> {["organizationSlug" := slug]} |}.

(** A world with an empty cache, at time 0, before any call. *)
Definition fresh_world : @World string :=
  {| cacheStore := ∅; now := 0; calls := [] |}.

(** A rule that throws after a rule that passes: caught, denied. *)
Example canActivate_failing_authcheck :
  (canActivate_try (sample_guard (Some [AlwaysTrueAuthCheck; FailingAuthCheck]) None)
     (sample_context (Some plain_request)) fresh_world).1
  = Thrown (CollaboratorError "authcheck failed")
  ∧ (canActivate (sample_guard (Some [AlwaysTrueAuthCheck; FailingAuthCheck]) None)
       (sample_context (Some plain_request)) fresh_world).1
    = Returned false.
Proof. split; vm_compute; reflexivity. Qed.

(** No request object: the guard throws its own error, caught, denied. *)
Example canActivate_null_request :
  canActivate_try (sample_guard (Some [AlwaysTrueAuthCheck]) None)
    (sample_context None) fresh_world
  = (Thrown (BadGatewayHttpError "request can not be null"), fresh_world)
  ∧ canActivate (sample_guard (Some [AlwaysTrueAuthCheck]) None)
      (sample_context None) fresh_world
    = (Returned false, fresh_world).
Proof. split; reflexivity. Qed.

(** A second decision on the same handler one hour after the first: the
    cache is asked, the reflector is not. *)
Example second_decision_within_the_week :
  calls_since
    (canActivate (sample_guard None (Some [AlwaysTrueAuthCheck]))
       (sample_context (Some plain_request)) (at_time 100 fresh_world)).2
    (canActivate (sample_guard None (Some [AlwaysTrueAuthCheck]))
       (sample_context (Some plain_request))
       (at_time 3700
          (canActivate (sample_guard None (Some [AlwaysTrueAuthCheck]))
             (sample_context (Some plain_request)) (at_time 100 fresh_world)).2)).2
  = [Wrap "AuthorizationGuard-authcheck?class=class CatsController&handler=findAll)"
       604800;
     IsAuthorized "AlwaysTrueAuthCheck"
       {| requestingEntity := "alice";
          orgIdForTargetResource := None;
          userIdForTargetResource := None |}].
Proof. vm_compute; reflexivity. Qed.

Lemma canActivate_public_route_witness :
  canActivate (sample_guard None None) (sample_context (Some public_request)) fresh_world
  = (Returned true, fresh_world).
Proof.
  apply (canActivate_public_route (sample_guard None None)
           (sample_context (Some public_request)) public_request fresh_world);
    reflexivity.
Defined.

Lemma canActivate_no_authorization_witness :
  canActivate (sample_guard (Some [AlwaysTrueAuthCheck]) None)
    (sample_context (Some anonymous_request)) fresh_world
  = (Returned false, fresh_world).
Proof.
  apply (canActivate_no_authorization (sample_guard (Some [AlwaysTrueAuthCheck]) None)
           (sample_context (Some anonymous_request)) anonymous_request fresh_world);
    reflexivity.
Defined.

(** No rule metadata anywhere: denied. *)
Lemma canActivate_fail_closed_witness :
  (canActivate (sample_guard None None) (sample_context (Some plain_request))
     fresh_world).1
  = Returned false.
Proof.
  apply (canActivate_fail_closed (sample_guard None None)
           (sample_context (Some plain_request)) plain_request "alice"
           fresh_world eq_refl eq_refl eq_refl).
  intros rs H. vm_compute in H. left. congruence.
Defined.

(** No request object; a repository that throws; a rule that throws
    after a rule that passes: each time the guard denies. *)
Lemma canActivate_contains_errors_witness :
  canActivate (sample_guard (Some [AlwaysTrueAuthCheck]) None)
    (sample_context None) fresh_world
  = (Returned false, fresh_world)
  ∧ canActivate (sample_guard (Some [AlwaysTrueAuthCheck]) None)
      (sample_context (Some (slug_request "broken"))) fresh_world
    = (Returned false, log_call (FindOne "broken") fresh_world)
  ∧ (canActivate
       (sample_guard (Some [AlwaysTrueAuthCheck; FailingAuthCheck; AlwaysTrueAuthCheck])
          None)
       (sample_context (Some plain_request)) fresh_world).1
    = Returned false.
Proof.
  split; [|split].
  - apply (proj1 (proj2 (canActivate_contains_errors
             (sample_guard (Some [AlwaysTrueAuthCheck]) None)
             (sample_context None) fresh_world)) eq_refl).
  - apply (proj1 (proj2 (proj2 (canActivate_contains_errors
             (sample_guard (Some [AlwaysTrueAuthCheck]) None)
             (sample_context (Some (slug_request "broken"))) fresh_world)))
           (slug_request "broken") "alice" "broken"
           (CollaboratorError "repository unavailable")
           eq_refl eq_refl eq_refl eq_refl ltac:(discriminate) eq_refl).
  - rewrite (proj2 (proj1 (proj2 (proj2 (proj2 (canActivate_contains_errors
      (sample_guard (Some [AlwaysTrueAuthCheck; FailingAuthCheck; AlwaysTrueAuthCheck])
         None)
      (sample_context (Some plain_request)) fresh_world))))
      plain_request "alice" None fresh_world
      [AlwaysTrueAuthCheck] FailingAuthCheck [AlwaysTrueAuthCheck]
      (getauthchecksFromCache
         (sample_guard
            (Some [AlwaysTrueAuthCheck; FailingAuthCheck; AlwaysTrueAuthCheck]) None)
         (sample_context (Some plain_request)) fresh_world).2
      (CollaboratorError "authcheck failed")
      eq_refl eq_refl eq_refl eq_refl eq_refl
      ltac:(repeat constructor) eq_refl)).
    reflexivity.
Defined.

(** The arguments the sample rules receive for the slug [acme]. *)
Definition acme_args : @AuthCheckParams string :=
  {| requestingEntity := "alice";
     orgIdForTargetResource := Some "org_1";
     userIdForTargetResource := Some "u42" |}.

(** Rules [pass; fail; pass]: denied after two calls; rules [pass; pass]:
    allowed after two calls. *)
Lemma canActivate_rules_in_order_witness :
  (calls_since fresh_world
     (canActivate
        (sample_guard
           (Some [AlwaysTrueAuthCheck; AlwaysFalseAuthCheck; AlwaysTrueAuthCheck]) None)
        (sample_context (Some (slug_request "acme"))) fresh_world).2
   = [FindOne "acme";
      Wrap "AuthorizationGuard-authcheck?class=class CatsController&handler=findAll)"
        604800;
      ReflectorGet "authorization" findAll;
      IsAuthorized "AlwaysTrueAuthCheck" acme_args;
      IsAuthorized "AlwaysFalseAuthCheck" acme_args])
  ∧ (canActivate
       (sample_guard (Some [AlwaysTrueAuthCheck; AlwaysTrueAuthCheck]) None)
       (sample_context (Some (slug_request "acme"))) fresh_world).1
    = Returned true.
Proof.
  split.
  - rewrite (proj1 (canActivate_rules_in_order
        (sample_guard
           (Some [AlwaysTrueAuthCheck; AlwaysFalseAuthCheck; AlwaysTrueAuthCheck]) None)
        (sample_context (Some (slug_request "acme"))) (slug_request "acme") "alice"
        fresh_world (Some "org_1") (log_call (FindOne "acme") fresh_world)
        [AlwaysTrueAuthCheck; AlwaysFalseAuthCheck; AlwaysTrueAuthCheck]
        (getauthchecksFromCache
           (sample_guard
              (Some [AlwaysTrueAuthCheck; AlwaysFalseAuthCheck; AlwaysTrueAuthCheck])
              None)
           (sample_context (Some (slug_request "acme")))
           (log_call (FindOne "acme") fresh_world)).2
        acme_args
        eq_refl eq_refl eq_refl eq_refl eq_refl
        ltac:(discriminate) eq_refl)
      [AlwaysTrueAuthCheck] AlwaysFalseAuthCheck [AlwaysTrueAuthCheck]
      eq_refl ltac:(repeat constructor) eq_refl).
    reflexivity.
  - rewrite (proj2 (canActivate_rules_in_order
        (sample_guard (Some [AlwaysTrueAuthCheck; AlwaysTrueAuthCheck]) None)
        (sample_context (Some (slug_request "acme"))) (slug_request "acme") "alice"
        fresh_world (Some "org_1") (log_call (FindOne "acme") fresh_world)
        [AlwaysTrueAuthCheck; AlwaysTrueAuthCheck]
        (getauthchecksFromCache
           (sample_guard (Some [AlwaysTrueAuthCheck; AlwaysTrueAuthCheck]) None)
           (sample_context (Some (slug_request "acme")))
           (log_call (FindOne "acme") fresh_world)).2
        acme_args
        eq_refl eq_refl eq_refl eq_refl eq_refl
        ltac:(discriminate) eq_refl)
      ltac:(repeat constructor)).
    reflexivity.
Defined.

(** A failing handler-level rule under a passing controller-level rule:
    the rule set is the handler's, after one read, and the decision is
    the one taken without any controller-level rule. *)
Lemma getauthcheck_handler_precedence_witness :
  getauthcheck
    (sample_guard (Some [AlwaysFalseAuthCheck]) (Some [AlwaysTrueAuthCheck]))
    (sample_context (Some plain_request)) fresh_world
  = (Returned (Some [AlwaysFalseAuthCheck]),
     log_calls [ReflectorGet "authorization" findAll] fresh_world)
  ∧ canActivate (sample_guard (Some [AlwaysFalseAuthCheck]) None)
      (sample_context (Some plain_request)) fresh_world
    = canActivate
        (sample_guard (Some [AlwaysFalseAuthCheck]) (Some [AlwaysTrueAuthCheck]))
        (sample_context (Some plain_request)) fresh_world.
Proof.
  pose proof (proj1 (getauthcheck_handler_precedence
    (sample_guard (Some [AlwaysFalseAuthCheck]) (Some [AlwaysTrueAuthCheck]))
    (sample_context (Some plain_request)) fresh_world)
    [AlwaysFalseAuthCheck] eq_refl) as [Hrun Hsame].
  split; [exact Hrun|].
  apply Hsame. repeat split.
Defined.

(** A rule that lets in the requests aimed at the organization [org_1]. *)
Definition OrgAccessAuthCheck : @AuthCheckContract string :=
  {| constructor_name := "OrgAccessAuthCheck";
     isAuthorized := λ args,
       Returned match orgIdForTargetResource args with
                | Some orgId => String.eqb orgId "org_1"
                | None => false
                end |}.

(** The slug [acme] resolves to [org_1]: the rule [OrgAccessAuthCheck] is
    called with it and allows; a rule that refuses is called with it and
    denies; every rule called receives it. The slug [nowhere] resolves to
    nothing, and the request is still allowed by a rule that passes. *)
Lemma canActivate_organization_id_witness :
  calls_since fresh_world
    (canActivate (sample_guard (Some [OrgAccessAuthCheck]) None)
       (sample_context (Some (slug_request "acme"))) fresh_world).2
  = [FindOne "acme";
     Wrap "AuthorizationGuard-authcheck?class=class CatsController&handler=findAll)"
       604800;
     ReflectorGet "authorization" findAll;
     IsAuthorized "OrgAccessAuthCheck" acme_args]
  ∧ (canActivate (sample_guard (Some [OrgAccessAuthCheck]) None)
       (sample_context (Some (slug_request "acme"))) fresh_world).1
    = Returned true
  ∧ (canActivate (sample_guard (Some [AlwaysFalseAuthCheck]) None)
       (sample_context (Some (slug_request "acme"))) fresh_world).1
    = Returned false
  ∧ (∀ name args,
      IsAuthorized name args
      ∈ calls_since fresh_world
          (canActivate (sample_guard (Some [AlwaysTrueAuthCheck]) None)
             (sample_context (Some (slug_request "acme"))) fresh_world).2 →
      orgIdForTargetResource args = Some "org_1")
  ∧ (canActivate (sample_guard (Some [AlwaysTrueAuthCheck]) None)
       (sample_context (Some (slug_request "nowhere"))) fresh_world).1
    = Returned true.
Proof.
  destruct (proj1 (canActivate_organization_id
      (sample_guard (Some [OrgAccessAuthCheck]) None)
      (sample_context (Some (slug_request "acme"))) (slug_request "acme") "alice"
      fresh_world eq_refl eq_refl eq_refl)
    "acme" {| organization_id := Some "org_1" |}
    eq_refl ltac:(discriminate) eq_refl) as (_ & _ & Hrules).
  destruct (Hrules [OrgAccessAuthCheck] _ eq_refl ltac:(discriminate))
    as (_ & Hallow & _).
  rewrite (Hallow ltac:(repeat constructor)).
  split; [reflexivity|]. split; [reflexivity|]. split; [|split].
  - destruct (proj1 (canActivate_organization_id
        (sample_guard (Some [AlwaysFalseAuthCheck]) None)
        (sample_context (Some (slug_request "acme"))) (slug_request "acme") "alice"
        fresh_world eq_refl eq_refl eq_refl)
      "acme" {| organization_id := Some "org_1" |}
      eq_refl ltac:(discriminate) eq_refl) as (_ & _ & Hrules').
    destruct (Hrules' [AlwaysFalseAuthCheck] _ eq_refl ltac:(discriminate))
      as (_ & _ & Hdeny).
    apply Hdeny. intros Hall. apply Forall_cons in Hall as [Hpass _].
    discriminate Hpass.
  - apply (proj1 (canActivate_organization_id
        (sample_guard (Some [AlwaysTrueAuthCheck]) None)
        (sample_context (Some (slug_request "acme"))) (slug_request "acme") "alice"
        fresh_world eq_refl eq_refl eq_refl)
      "acme" {| organization_id := Some "org_1" |}
      eq_refl ltac:(discriminate) eq_refl).
  - destruct (proj2 (canActivate_organization_id
        (sample_guard (Some [AlwaysTrueAuthCheck]) None)
        (sample_context (Some (slug_request "nowhere"))) (slug_request "nowhere")
        "alice" fresh_world eq_refl eq_refl eq_refl)
      (or_intror (ex_intro _ "nowhere" (conj eq_refl eq_refl))))
      as (_ & _ & Hallow').
    rewrite (Hallow' [AlwaysTrueAuthCheck] _ eq_refl ltac:(discriminate)
               ltac:(repeat constructor)).
    reflexivity.
Defined.

(** Two runs of [getauthcheck] on the same metadata, in different worlds. *)
Lemma getauthcheck_deterministic_witness :
  (getauthcheck (sample_guard None (Some [AlwaysTrueAuthCheck; AlwaysFalseAuthCheck]))
     (sample_context (Some plain_request)) fresh_world).1
  = (getauthcheck (sample_guard None (Some [AlwaysTrueAuthCheck; AlwaysFalseAuthCheck]))
       (sample_context None)
       (at_time 5000
          (canActivate (sample_guard (Some []) None)
             (sample_context (Some plain_request)) fresh_world).2)).1.
Proof.
  apply (getauthcheck_deterministic
           (sample_guard None (Some [AlwaysTrueAuthCheck; AlwaysFalseAuthCheck]))
           (sample_guard None (Some [AlwaysTrueAuthCheck; AlwaysFalseAuthCheck]))
           (sample_context (Some plain_request)) (sample_context None)
           fresh_world _ eq_refl eq_refl).
Defined.


(** Two decisions on [findAll], whose rules sit on the controller: within
    the week the metadata is read twice in all (one run of
    [getauthcheck]); a week later, it is read again. *)
Lemma rule_set_cached_one_week_witness :
  reflector_reads
    (calls_since fresh_world
       (canActivate (sample_guard None (Some [AlwaysTrueAuthCheck]))
          (sample_context (Some (slug_request "acme")))
          (at_time 604899
             (canActivate (sample_guard None (Some [AlwaysTrueAuthCheck]))
                (sample_context (Some plain_request)) (at_time 100 fresh_world)).2)).2)
  ≤ 2
  ∧ 0 < reflector_reads
          (calls_since
             (canActivate (sample_guard None (Some [AlwaysTrueAuthCheck]))
                (sample_context (Some plain_request)) (at_time 100 fresh_world)).2
             (canActivate (sample_guard None (Some [AlwaysTrueAuthCheck]))
                (sample_context (Some (slug_request "acme")))
                (at_time 604900
                   (canActivate (sample_guard None (Some [AlwaysTrueAuthCheck]))
                      (sample_context (Some plain_request))
                      (at_time 100 fresh_world)).2)).2).
Proof.
  split.
  - apply (proj1 (proj2 (rule_set_cached_one_week
        (sample_guard None (Some [AlwaysTrueAuthCheck]))
        (sample_context (Some plain_request))
        (sample_context (Some (slug_request "acme")))
        fresh_world 100 604899 _ _ eq_refl eq_refl eq_refl eq_refl))).
    vm_compute; reflexivity.
  - apply (proj2 (proj2 (rule_set_cached_one_week
        (sample_guard None (Some [AlwaysTrueAuthCheck]))
        (sample_context (Some plain_request))
        (sample_context (Some (slug_request "acme")))
        fresh_world 100 604900 _ _ eq_refl eq_refl eq_refl eq_refl))
      ltac:(vm_compute; discriminate) ltac:(vm_compute; lia)
      (slug_request "acme") "alice" (Some "org_1") eq_refl eq_refl eq_refl eq_refl).
Defined.

(** ** Concrete runs of the further properties *)

(** The arguments the sample rules receive for a request without slug. *)
Definition plain_args : @AuthCheckParams string :=
  {| requestingEntity := "alice";
     orgIdForTargetResource := None;
     userIdForTargetResource := None |}.

(** Rules [pass; throw; pass]: denied, and the third rule is not called. *)
Lemma canActivate_throwing_rule_stops_witness :
  (canActivate
     (sample_guard (Some [AlwaysTrueAuthCheck; FailingAuthCheck; AlwaysTrueAuthCheck])
        None)
     (sample_context (Some plain_request)) fresh_world).1
  = Returned false
  ∧ calls_since fresh_world
      (canActivate
         (sample_guard
            (Some [AlwaysTrueAuthCheck; FailingAuthCheck; AlwaysTrueAuthCheck]) None)
         (sample_context (Some plain_request)) fresh_world).2
    = [Wrap "AuthorizationGuard-authcheck?class=class CatsController&handler=findAll)"
         604800;
       ReflectorGet "authorization" findAll;
       IsAuthorized "AlwaysTrueAuthCheck" plain_args;
       IsAuthorized "FailingAuthCheck" plain_args].
Proof.
  rewrite (canActivate_throwing_rule_stops
    (sample_guard (Some [AlwaysTrueAuthCheck; FailingAuthCheck; AlwaysTrueAuthCheck])
       None)
    (sample_context (Some plain_request)) plain_request "alice" fresh_world
    None fresh_world [AlwaysTrueAuthCheck] FailingAuthCheck [AlwaysTrueAuthCheck]
    (getauthchecksFromCache
       (sample_guard
          (Some [AlwaysTrueAuthCheck; FailingAuthCheck; AlwaysTrueAuthCheck]) None)
       (sample_context (Some plain_request)) fresh_world).2
    (CollaboratorError "authcheck failed") plain_args
    eq_refl eq_refl eq_refl eq_refl eq_refl eq_refl
    ltac:(repeat constructor) eq_refl).
  split; reflexivity.
Defined.

(** The slug [broken]: one [findOne], nothing else, denied. *)
Lemma canActivate_repository_failure_witness :
  (canActivate (sample_guard (Some [AlwaysTrueAuthCheck]) None)
     (sample_context (Some (slug_request "broken"))) fresh_world).1
  = Returned false
  ∧ calls_since fresh_world
      (canActivate (sample_guard (Some [AlwaysTrueAuthCheck]) None)
         (sample_context (Some (slug_request "broken"))) fresh_world).2
    = [FindOne "broken"]
  ∧ cacheStore
      (canActivate (sample_guard (Some [AlwaysTrueAuthCheck]) None)
         (sample_context (Some (slug_request "broken"))) fresh_world).2
    = ∅.
Proof.
  apply (canActivate_repository_failure
           (sample_guard (Some [AlwaysTrueAuthCheck]) None)
           (sample_context (Some (slug_request "broken"))) (slug_request "broken")
           "alice" "broken" (CollaboratorError "repository unavailable") fresh_world
           eq_refl eq_refl eq_refl eq_refl ltac:(discriminate) eq_refl).
Defined.

(** The rules of a request for [acme] get [alice] and the user id [u42]. *)
Lemma canActivate_rule_arguments_witness :
  Forall (λ e, match e with
               | IsAuthorized _ args =>
                   requestingEntity args = "alice"
                   ∧ userIdForTargetResource args = Some "u42"
               | _ => True
               end)
    (calls_since fresh_world
       (canActivate (sample_guard (Some [AlwaysTrueAuthCheck]) None)
          (sample_context (Some (slug_request "acme"))) fresh_world).2).
Proof.
  apply Forall_forall. intros [slug | key ttl | metadataKey target | name args] Hin;
    try exact I.
  exact (canActivate_rule_arguments (sample_guard (Some [AlwaysTrueAuthCheck]) None)
           (sample_context (Some (slug_request "acme"))) (slug_request "acme") "alice"
           fresh_world eq_refl eq_refl eq_refl name args Hin).
Defined.

(** Starting from an empty cache, the cache is coherent after a decision. *)
Lemma cache_coherent_preserved_witness :
  cache_coherent (sample_guard None (Some [AlwaysTrueAuthCheck]))
    (sample_context (Some plain_request))
    (at_time 3600
       (canActivate (sample_guard None (Some [AlwaysTrueAuthCheck]))
          (sample_context (Some (slug_request "acme"))) fresh_world).2).
Proof.
  apply (cache_coherent_preserved (sample_guard None (Some [AlwaysTrueAuthCheck]))
           (sample_context (Some plain_request))
           (sample_context (Some (slug_request "acme"))) fresh_world 3600
           (or_introl (conj eq_refl eq_refl))).
  intros expiry v H. vm_compute in H. discriminate H.
Defined.

(** The decision taken on an empty cache and the one taken an hour later
    on the cache the first one filled are the same. *)
Lemma canActivate_cache_transparent_witness :
  (canActivate (sample_guard None (Some [AlwaysTrueAuthCheck]))
     (sample_context (Some plain_request)) fresh_world).1
  = (canActivate (sample_guard None (Some [AlwaysTrueAuthCheck]))
       (sample_context (Some plain_request))
       (at_time 3600
          (canActivate (sample_guard None (Some [AlwaysTrueAuthCheck]))
             (sample_context (Some plain_request)) fresh_world).2)).1.
Proof.
  apply (canActivate_cache_transparent (sample_guard None (Some [AlwaysTrueAuthCheck]))
           (sample_context (Some plain_request))).
  - intros expiry v H. vm_compute in H. discriminate H.
  - intros expiry v H. vm_compute in H. injection H as _ <-. reflexivity.
Defined.

(** The calls of a decision for [acme] under rules [pass; fail; pass]. *)
Lemma canActivate_call_order_witness :
  ∃ reads k,
    calls_since fresh_world
      (canActivate
         (sample_guard
            (Some [AlwaysTrueAuthCheck; AlwaysFalseAuthCheck; AlwaysTrueAuthCheck]) None)
         (sample_context (Some (slug_request "acme"))) fresh_world).2
    = [FindOne "acme"]
      ++ [Wrap "AuthorizationGuard-authcheck?class=class CatsController&handler=findAll)"
            604800]
      ++ reads
      ++ (authcheck_call acme_args
            <$> take k [AlwaysTrueAuthCheck; AlwaysFalseAuthCheck; AlwaysTrueAuthCheck])
    ∧ (reads = [] ∨ reads = [ReflectorGet "authorization" findAll]).
Proof.
  apply (canActivate_call_order
    (sample_guard
       (Some [AlwaysTrueAuthCheck; AlwaysFalseAuthCheck; AlwaysTrueAuthCheck]) None)
    (sample_context (Some (slug_request "acme"))) (slug_request "acme") "alice"
    fresh_world (Some "org_1")
    (Some [AlwaysTrueAuthCheck; AlwaysFalseAuthCheck; AlwaysTrueAuthCheck])
    eq_refl eq_refl eq_refl eq_refl eq_refl).
Defined.

(** A second controller made by the same factory: another class and
    another handler, with the same texts and no rule metadata. *)
Definition twin_context (req : option (@Request string)) : @ExecutionContext string :=
  {| getRequest := req;
     getClass := {| fn_ident := 8; fn_text := "class CatsController" |};
     getHandler := {| fn_ident := 7; fn_text := "findAll" |} |}.

(** The twin route has no rules of its own, and is served the rules of
    [findAll] from the cache. *)
Lemma getauthchecksFromCache_shared_by_text_witness :
  (getauthcheck (sample_guard (Some [AlwaysFalseAuthCheck]) None)
     (twin_context (Some plain_request)) fresh_world).1
  = Returned None
  ∧ (getauthchecksFromCache (sample_guard (Some [AlwaysFalseAuthCheck]) None)
       (twin_context (Some plain_request))
       (at_time 3600
          (getauthchecksFromCache (sample_guard (Some [AlwaysFalseAuthCheck]) None)
             (sample_context (Some plain_request)) fresh_world).2)).1
    = Returned (Some [AlwaysFalseAuthCheck]).
Proof.
  split; [reflexivity|].
  rewrite (getauthchecksFromCache_shared_by_text
    (sample_guard (Some [AlwaysFalseAuthCheck]) None)
    (sample_guard (Some [AlwaysFalseAuthCheck]) None)
    (sample_context (Some plain_request)) (twin_context (Some plain_request))
    fresh_world 3600 eq_refl eq_refl eq_refl eq_refl).
  reflexivity.
Defined.

(** Rules [pass; fail] against rules [fail; pass; fail]: same decision. *)
Lemma canActivate_rule_order_irrelevant_witness :
  (canActivate (sample_guard (Some [AlwaysTrueAuthCheck; AlwaysFalseAuthCheck]) None)
     (sample_context (Some plain_request)) fresh_world).1
  = (canActivate
       (sample_guard
          (Some [AlwaysFalseAuthCheck; AlwaysTrueAuthCheck; AlwaysFalseAuthCheck]) None)
       (sample_context (Some plain_request)) (at_time 42 fresh_world)).1.
Proof.
  apply (canActivate_rule_order_irrelevant
           (sample_guard (Some [AlwaysTrueAuthCheck; AlwaysFalseAuthCheck]) None)
           (sample_guard
              (Some [AlwaysFalseAuthCheck; AlwaysTrueAuthCheck; AlwaysFalseAuthCheck])
              None)
           (sample_context (Some plain_request)) fresh_world (at_time 42 fresh_world)
           [AlwaysTrueAuthCheck; AlwaysFalseAuthCheck]
           [AlwaysFalseAuthCheck; AlwaysTrueAuthCheck; AlwaysFalseAuthCheck]
           eq_refl eq_refl eq_refl eq_refl).
  - intros c. rewrite !elem_of_cons, !elem_of_nil. tauto.
  - intros expiry v H. vm_compute in H. discriminate H.
  - intros expiry v H. vm_compute in H. discriminate H.
Defined.


